(** * FractalMC: the planning controller of fractalai/fractalmc.py

    A shallow embedding of the class [FractalMC] (a subclass of [Swarm]) and
    proofs about its stop condition, its origin-id bookkeeping, its adaptive
    resource control, its action aggregation and its episode loop.

    Conventions of the embedding.
    - Python [int] values are [Z]; numpy float values (rewards, balance) are
      idealised as rationals [Q]; every concrete input used below is a dyadic
      rational on which float arithmetic is exact.
    - One Python object is one record [FractalMC]: the attributes the class
      reads or writes are fields, everything else the object owns (the
      environment, the model, the data store, the random generator) lives in
      the field [hidden].
    - A Python exception is a value of [exn]; a method that may raise returns
      [result].  The two [while] loops take fuel.
    - The methods inherited from [Swarm], the environment and the tree are
      collaborators whose code is not part of fractalmc.py: they are the
      members of the class [Collaborators], and the assumptions made on them
      are the records [CycleStart], [SwarmFrame] and [SampleCost].
    - [_max_step_total] is assigned in [__init__] and read nowhere in the
      class; it has no field.
    - The model is a [DiscreteModel]; printing and [clear_output] are left
      out ([print_swarm = False], [print_info = False]). *)

From Stdlib Require Import String ZArith QArith Qround Bool Lia Arith List.
Import ListNotations.
Open Scope Z_scope.

Set Implicit Arguments.

(** ** Exceptions and the error monad *)

Inductive exn : Type :=
| IndexError
| ValueError
| TypeError
| ZeroDivisionError
| TreeError
| OutOfFuel.

Inductive result (A : Type) : Type :=
| Ok (a : A)
| Raise (e : exn).

Arguments Ok {A} a.
Arguments Raise {A} e.

Definition bind {A B : Type} (m : result A) (k : A -> result B) : result B :=
  match m with
  | Ok a => k a
  | Raise e => Raise e
  end.

Notation "x <- m ;; k" := (bind m (fun x => k))
  (at level 61, m at next level, right associativity).

Definition is_ok {A : Type} (m : result A) : bool :=
  match m with Ok _ => true | Raise _ => false end.

(** ** The numpy operations the class uses *)

Definition Qltb (a b : Q) : bool := negb (Qle_bool b a).

(** [a.max()]: raises on an empty array. *)
Fixpoint Qmax_from (m : Q) (l : list Q) : Q :=
  match l with
  | [] => m
  | x :: t => Qmax_from (if Qltb m x then x else m) t
  end.

Definition np_max (l : list Q) : result Q :=
  match l with
  | [] => Raise ValueError
  | x :: t => Ok (Qmax_from x t)
  end.

(** [a.argmax()] on rationals: the first index of a maximal entry. *)
Fixpoint Qargmax_from (bi : nat) (bv : Q) (i : nat) (l : list Q) : nat :=
  match l with
  | [] => bi
  | x :: t => if Qltb bv x then Qargmax_from i x (S i) t
              else Qargmax_from bi bv (S i) t
  end.

Definition np_argmax_Q (l : list Q) : result nat :=
  match l with
  | [] => Raise ValueError
  | x :: t => Ok (Qargmax_from 0%nat x 1%nat t)
  end.

(** [np.argmax] on integers: the first index of a maximal entry. *)
Fixpoint Zargmax_from (bi : nat) (bv : Z) (i : nat) (l : list Z) : nat :=
  match l with
  | [] => bi
  | x :: t => if bv <? x then Zargmax_from i x (S i) t
              else Zargmax_from bi bv (S i) t
  end.

Definition np_argmax (l : list Z) : result nat :=
  match l with
  | [] => Raise ValueError
  | x :: t => Ok (Zargmax_from 0%nat x 1%nat t)
  end.

(** [a.all()] *)
Definition np_all (l : list bool) : bool := forallb (fun b => b) l.

(** [np.zeros(n).astype(int)] *)
Definition np_zeros (n : Z) : result (list Z) :=
  if n <? 0 then Raise ValueError else Ok (repeat 0 (Z.to_nat n)).

(** [a[i]] for one Python index: negative indices count from the end. *)
Definition py_index {A : Type} (a : list A) (i : Z) : result A :=
  let n := Z.of_nat (length a) in
  if (i <? - n) || (n <=? i) then Raise IndexError
  else match nth_error a (Z.to_nat (if i <? 0 then i + n else i)) with
       | Some x => Ok x
       | None => Raise IndexError
       end.

(** [a[idx]] for an integer index array. *)
Fixpoint np_take {A : Type} (a : list A) (idx : list Z) : result (list A) :=
  match idx with
  | [] => Ok []
  | i :: t => x <- py_index a i ;; r <- np_take a t ;; Ok (x :: r)
  end.

(** Broadcasting of one-dimensional shapes. *)
Definition bshape (a b : nat) : option nat :=
  if Nat.eqb a b then Some a
  else if Nat.eqb a 1 then Some b
  else if Nat.eqb b 1 then Some a
  else None.

(** Entry [i] of an array broadcast to a longer shape. *)
Definition bget {A : Type} (a : list A) (i : nat) : option A :=
  match a with
  | [x] => Some x
  | _ => nth_error a i
  end.

Fixpoint where_rows {A : Type} (c : list bool) (x y : list A)
    (i n : nat) : result (list A) :=
  match n with
  | O => Ok []
  | S n' =>
      match bget c i, bget x i, bget y i with
      | Some b, Some u, Some v =>
          r <- where_rows c x y (S i) n' ;; Ok ((if b then u else v) :: r)
      | _, _, _ => Raise ValueError
      end
  end.

(** [np.where(c, x, y)] on one-dimensional arrays. *)
Definition np_where {A : Type} (c : list bool) (x y : list A)
    : result (list A) :=
  match bshape (length c) (length x) with
  | None => Raise ValueError
  | Some n1 =>
      match bshape n1 (length y) with
      | None => Raise ValueError
      | Some n => where_rows c x y 0 n
      end
  end.

(** [np.bincount(x, minlength=m)]: raises on a negative entry. *)
Definition count_of (v : Z) (x : list Z) : Z :=
  Z.of_nat (length (filter (Z.eqb v) x)).

Definition bincount (x : list Z) (minlength : nat) : result (list Z) :=
  if existsb (fun v => v <? 0) x then Raise ValueError
  else
    let len := Nat.max minlength (Z.to_nat (fold_right Z.max (-1) x + 1)) in
    Ok (map (fun i => count_of (Z.of_nat i) x) (seq 0 len)).

(** [np.clip(v, lo, hi)] is [minimum(hi, maximum(v, lo))]; [hi = None]
    leaves the upper side open. *)
Definition np_clip (v lo : Z) (hi : option Z) : Z :=
  match hi with
  | Some h => Z.min h (Z.max v lo)
  | None => Z.max v lo
  end.

Definition Zsum (l : list Z) : Z := fold_right Z.add 0 l.

(** [a.mean()] of an integer array. *)
Definition np_mean (l : list Z) : Q :=
  inject_Z (Zsum l) / inject_Z (Z.of_nat (length l)).

(** ** The object *)

Record FractalMC (T H : Type) : Type := mkFractalMC {
  n_walkers : Z;  (* self.n_walkers: current population size *)
  balance : Q;  (* self.balance *)
  reward_limit : option Q;  (* self.reward_limit; None by default *)
  render_every : option Z;  (* self.render_every *)
  min_dt : Z;  (* self.min_dt *)
  _n_samples_done : Z;  (* samples consumed in the current cycle *)
  _i_simulation : Z;  (* evolution iterations done in the current cycle *)
  rewards : list Q;  (* self.rewards: cumulative reward per walker *)
  times : list Z;  (* self.times: elapsed time per walker *)
  _end_cond : list bool;  (* self._end_cond: terminal flag per walker *)
  walkers_id : list Z;  (* self.walkers_id: current node id per walker *)
  _will_clone : list bool;  (* self._will_clone: clone decision per walker *)
  _clone_idx : option (list Z);  (* self._clone_idx: companion indices *)
  _game_status : string;  (* self._game_status *)
  skip_initial_frames : Z;  (* self.skip_initial_frames *)
  max_walkers : Z;  (* self.max_walkers: configured maximum population *)
  time_horizon : Z;  (* self.time_horizon *)
  max_samples : option Z;  (* self.max_samples: configured per-cycle maximum *)
  min_horizon : Z;  (* self.min_horizon *)
  _max_samples_step : Z;  (* self._max_samples_step: current per-cycle budget *)
  init_ids : list Z;  (* self.init_ids: origin node id per walker *)
  _update_parameters : bool;  (* self._update_parameters *)
  _save_steps : list Z;  (* self._save_steps *)
  _agent_reward : Q;  (* self._agent_reward *)
  _last_action : option Z;  (* self._last_action *)
  tree : T;  (* self.tree *)
  hidden : H  (* environment, model, data store, random generator *)
}.

(** Attribute assignment [self.f = v], one setter per assigned attribute. *)

Section Setters.
Context {T H : Type}.
Implicit Type s : FractalMC T H.

Definition set_n_walkers (v : Z) s : FractalMC T H :=
  mkFractalMC v (balance s) (reward_limit s) (render_every s) (min_dt s)
    (_n_samples_done s) (_i_simulation s) (rewards s) (times s)
    (_end_cond s) (walkers_id s) (_will_clone s) (_clone_idx s)
    (_game_status s) (skip_initial_frames s) (max_walkers s)
    (time_horizon s) (max_samples s) (min_horizon s) (_max_samples_step s)
    (init_ids s) (_update_parameters s) (_save_steps s) (_agent_reward s)
    (_last_action s) (tree s) (hidden s).

Definition set_balance (v : Q) s : FractalMC T H :=
  mkFractalMC (n_walkers s) v (reward_limit s) (render_every s) (min_dt s)
    (_n_samples_done s) (_i_simulation s) (rewards s) (times s)
    (_end_cond s) (walkers_id s) (_will_clone s) (_clone_idx s)
    (_game_status s) (skip_initial_frames s) (max_walkers s)
    (time_horizon s) (max_samples s) (min_horizon s) (_max_samples_step s)
    (init_ids s) (_update_parameters s) (_save_steps s) (_agent_reward s)
    (_last_action s) (tree s) (hidden s).

Definition set_n_samples_done (v : Z) s : FractalMC T H :=
  mkFractalMC (n_walkers s) (balance s) (reward_limit s) (render_every s)
    (min_dt s) v (_i_simulation s) (rewards s) (times s) (_end_cond s)
    (walkers_id s) (_will_clone s) (_clone_idx s) (_game_status s)
    (skip_initial_frames s) (max_walkers s) (time_horizon s) (max_samples s)
    (min_horizon s) (_max_samples_step s) (init_ids s)
    (_update_parameters s) (_save_steps s) (_agent_reward s)
    (_last_action s) (tree s) (hidden s).

Definition set_i_simulation (v : Z) s : FractalMC T H :=
  mkFractalMC (n_walkers s) (balance s) (reward_limit s) (render_every s)
    (min_dt s) (_n_samples_done s) v (rewards s) (times s) (_end_cond s)
    (walkers_id s) (_will_clone s) (_clone_idx s) (_game_status s)
    (skip_initial_frames s) (max_walkers s) (time_horizon s) (max_samples s)
    (min_horizon s) (_max_samples_step s) (init_ids s)
    (_update_parameters s) (_save_steps s) (_agent_reward s)
    (_last_action s) (tree s) (hidden s).

Definition set_rewards (v : list Q) s : FractalMC T H :=
  mkFractalMC (n_walkers s) (balance s) (reward_limit s) (render_every s)
    (min_dt s) (_n_samples_done s) (_i_simulation s) v (times s)
    (_end_cond s) (walkers_id s) (_will_clone s) (_clone_idx s)
    (_game_status s) (skip_initial_frames s) (max_walkers s)
    (time_horizon s) (max_samples s) (min_horizon s) (_max_samples_step s)
    (init_ids s) (_update_parameters s) (_save_steps s) (_agent_reward s)
    (_last_action s) (tree s) (hidden s).

Definition set_times (v : list Z) s : FractalMC T H :=
  mkFractalMC (n_walkers s) (balance s) (reward_limit s) (render_every s)
    (min_dt s) (_n_samples_done s) (_i_simulation s) (rewards s) v
    (_end_cond s) (walkers_id s) (_will_clone s) (_clone_idx s)
    (_game_status s) (skip_initial_frames s) (max_walkers s)
    (time_horizon s) (max_samples s) (min_horizon s) (_max_samples_step s)
    (init_ids s) (_update_parameters s) (_save_steps s) (_agent_reward s)
    (_last_action s) (tree s) (hidden s).

Definition set_end_cond (v : list bool) s : FractalMC T H :=
  mkFractalMC (n_walkers s) (balance s) (reward_limit s) (render_every s)
    (min_dt s) (_n_samples_done s) (_i_simulation s) (rewards s) (times s) v
    (walkers_id s) (_will_clone s) (_clone_idx s) (_game_status s)
    (skip_initial_frames s) (max_walkers s) (time_horizon s) (max_samples s)
    (min_horizon s) (_max_samples_step s) (init_ids s)
    (_update_parameters s) (_save_steps s) (_agent_reward s)
    (_last_action s) (tree s) (hidden s).

Definition set_walkers_id (v : list Z) s : FractalMC T H :=
  mkFractalMC (n_walkers s) (balance s) (reward_limit s) (render_every s)
    (min_dt s) (_n_samples_done s) (_i_simulation s) (rewards s) (times s)
    (_end_cond s) v (_will_clone s) (_clone_idx s) (_game_status s)
    (skip_initial_frames s) (max_walkers s) (time_horizon s) (max_samples s)
    (min_horizon s) (_max_samples_step s) (init_ids s)
    (_update_parameters s) (_save_steps s) (_agent_reward s)
    (_last_action s) (tree s) (hidden s).

Definition set_will_clone (v : list bool) s : FractalMC T H :=
  mkFractalMC (n_walkers s) (balance s) (reward_limit s) (render_every s)
    (min_dt s) (_n_samples_done s) (_i_simulation s) (rewards s) (times s)
    (_end_cond s) (walkers_id s) v (_clone_idx s) (_game_status s)
    (skip_initial_frames s) (max_walkers s) (time_horizon s) (max_samples s)
    (min_horizon s) (_max_samples_step s) (init_ids s)
    (_update_parameters s) (_save_steps s) (_agent_reward s)
    (_last_action s) (tree s) (hidden s).

Definition set_clone_idx (v : option (list Z)) s : FractalMC T H :=
  mkFractalMC (n_walkers s) (balance s) (reward_limit s) (render_every s)
    (min_dt s) (_n_samples_done s) (_i_simulation s) (rewards s) (times s)
    (_end_cond s) (walkers_id s) (_will_clone s) v (_game_status s)
    (skip_initial_frames s) (max_walkers s) (time_horizon s) (max_samples s)
    (min_horizon s) (_max_samples_step s) (init_ids s)
    (_update_parameters s) (_save_steps s) (_agent_reward s)
    (_last_action s) (tree s) (hidden s).

Definition set_game_status (v : string) s : FractalMC T H :=
  mkFractalMC (n_walkers s) (balance s) (reward_limit s) (render_every s)
    (min_dt s) (_n_samples_done s) (_i_simulation s) (rewards s) (times s)
    (_end_cond s) (walkers_id s) (_will_clone s) (_clone_idx s) v
    (skip_initial_frames s) (max_walkers s) (time_horizon s) (max_samples s)
    (min_horizon s) (_max_samples_step s) (init_ids s)
    (_update_parameters s) (_save_steps s) (_agent_reward s)
    (_last_action s) (tree s) (hidden s).

Definition set_max_samples_step (v : Z) s : FractalMC T H :=
  mkFractalMC (n_walkers s) (balance s) (reward_limit s) (render_every s)
    (min_dt s) (_n_samples_done s) (_i_simulation s) (rewards s) (times s)
    (_end_cond s) (walkers_id s) (_will_clone s) (_clone_idx s)
    (_game_status s) (skip_initial_frames s) (max_walkers s)
    (time_horizon s) (max_samples s) (min_horizon s) v (init_ids s)
    (_update_parameters s) (_save_steps s) (_agent_reward s)
    (_last_action s) (tree s) (hidden s).

Definition set_init_ids (v : list Z) s : FractalMC T H :=
  mkFractalMC (n_walkers s) (balance s) (reward_limit s) (render_every s)
    (min_dt s) (_n_samples_done s) (_i_simulation s) (rewards s) (times s)
    (_end_cond s) (walkers_id s) (_will_clone s) (_clone_idx s)
    (_game_status s) (skip_initial_frames s) (max_walkers s)
    (time_horizon s) (max_samples s) (min_horizon s) (_max_samples_step s) v
    (_update_parameters s) (_save_steps s) (_agent_reward s)
    (_last_action s) (tree s) (hidden s).

Definition set_save_steps (v : list Z) s : FractalMC T H :=
  mkFractalMC (n_walkers s) (balance s) (reward_limit s) (render_every s)
    (min_dt s) (_n_samples_done s) (_i_simulation s) (rewards s) (times s)
    (_end_cond s) (walkers_id s) (_will_clone s) (_clone_idx s)
    (_game_status s) (skip_initial_frames s) (max_walkers s)
    (time_horizon s) (max_samples s) (min_horizon s) (_max_samples_step s)
    (init_ids s) (_update_parameters s) v (_agent_reward s) (_last_action s)
    (tree s) (hidden s).

Definition set_agent_reward (v : Q) s : FractalMC T H :=
  mkFractalMC (n_walkers s) (balance s) (reward_limit s) (render_every s)
    (min_dt s) (_n_samples_done s) (_i_simulation s) (rewards s) (times s)
    (_end_cond s) (walkers_id s) (_will_clone s) (_clone_idx s)
    (_game_status s) (skip_initial_frames s) (max_walkers s)
    (time_horizon s) (max_samples s) (min_horizon s) (_max_samples_step s)
    (init_ids s) (_update_parameters s) (_save_steps s) v (_last_action s)
    (tree s) (hidden s).

Definition set_last_action (v : option Z) s : FractalMC T H :=
  mkFractalMC (n_walkers s) (balance s) (reward_limit s) (render_every s)
    (min_dt s) (_n_samples_done s) (_i_simulation s) (rewards s) (times s)
    (_end_cond s) (walkers_id s) (_will_clone s) (_clone_idx s)
    (_game_status s) (skip_initial_frames s) (max_walkers s)
    (time_horizon s) (max_samples s) (min_horizon s) (_max_samples_step s)
    (init_ids s) (_update_parameters s) (_save_steps s) (_agent_reward s) v
    (tree s) (hidden s).

Definition set_tree (v : T) s : FractalMC T H :=
  mkFractalMC (n_walkers s) (balance s) (reward_limit s) (render_every s)
    (min_dt s) (_n_samples_done s) (_i_simulation s) (rewards s) (times s)
    (_end_cond s) (walkers_id s) (_will_clone s) (_clone_idx s)
    (_game_status s) (skip_initial_frames s) (max_walkers s)
    (time_horizon s) (max_samples s) (min_horizon s) (_max_samples_step s)
    (init_ids s) (_update_parameters s) (_save_steps s) (_agent_reward s)
    (_last_action s) v (hidden s).

Definition set_hidden (v : H) s : FractalMC T H :=
  mkFractalMC (n_walkers s) (balance s) (reward_limit s) (render_every s)
    (min_dt s) (_n_samples_done s) (_i_simulation s) (rewards s) (times s)
    (_end_cond s) (walkers_id s) (_will_clone s) (_clone_idx s)
    (_game_status s) (skip_initial_frames s) (max_walkers s)
    (time_horizon s) (max_samples s) (min_horizon s) (_max_samples_step s)
    (init_ids s) (_update_parameters s) (_save_steps s) (_agent_reward s)
    (_last_action s) (tree s) v.

End Setters.

(** ** Collaborators

    [Swarm] (the base class), the environment and [DynamicTree] are used by
    fractalmc.py through the calls below.  Base-class methods act on the whole
    object; environment calls act on [hidden]; tree calls act on [tree]. *)

(** What [env.step] returns: [(state, obs, reward, end, info)], of [info]
    only the optional key ["terminal"] is read. *)
Record StepResult (EState Obs : Type) : Type := mkStepResult {
  sr_state : EState;
  sr_obs : Obs;
  sr_reward : Q;
  sr_end : bool;
  sr_terminal : option bool
}.

(** What [tree.get_branch] returns: [(states, actions, dts)]. *)
Definition Branch (EState : Type) : Type :=
  (list EState * list Z * list Z)%type.

Class Collaborators (T H EState Obs : Type) : Type := {
  (* Swarm *)
  swarm_reset : FractalMC T H -> FractalMC T H;
  swarm_init_swarm :
    option EState -> option Obs -> FractalMC T H -> FractalMC T H;
  clone_condition : FractalMC T H -> FractalMC T H;
  step_walkers : FractalMC T H -> FractalMC T H;
  swarm_clone : FractalMC T H -> FractalMC T H;
  get_actions : H -> list Z -> list Z;
  (* environment *)
  n_actions : nat;
  env_reset : H -> H * (EState * Obs);
  env_step : H -> EState -> Z -> Z -> H * StepResult EState Obs;
  env_render : H -> H;
  env_n_repeat_action : H -> Z;
  (* DynamicTree *)
  tree_reset : T -> T;
  append_leaf : Z -> Z -> EState -> Z -> Z -> T -> result T;
  get_branch : T -> Z -> result (Branch EState)
}.

(** ** Calls made during an episode

    [run_agent] and [_skip_initial_frames] are given a trace semantics: every
    call of [tree.append_leaf] and every planning cycle is recorded, in order,
    whether or not the call returns normally. *)

Inductive event : Type :=
| EvAppendLeaf (node_id parent_id action dt : Z)
| EvRunSwarm.

Definition traced (A : Type) : Type := (list event * result A)%type.

Definition tbind {A B : Type} (m : traced A) (k : A -> traced B) : traced B :=
  match m with
  | (tr, Ok a) => let (tr', r) := k a in (tr ++ tr', r)
  | (tr, Raise e) => (tr, Raise e)
  end.

Definition emit (e : event) : traced unit := ([e], Ok tt).

Definition lift {A : Type} (r : result A) : traced A := ([], r).

Notation "x <~ m ;; k" := (tbind m (fun x => k))
  (at level 61, m at next level, right associativity).

(** ** The methods of [FractalMC] *)

(** [__init__], lines 56-59: the initial per-cycle budget. *)
Definition init_max_samples_step
    (max_samples_step : option Z) (n_walkers time_horizon : Z) : Z :=
  let _max_samples :=
    match max_samples_step with Some m => m | None => 10 ^ 10 end in
  Z.min _max_samples (n_walkers * time_horizon).

(** [np.maximum] on two scalars. *)
Definition np_maximum (a b : Q) : Q := if Qltb a b then b else a.

(** [a[mask]] for a boolean mask of the same length. *)
Fixpoint np_mask {A : Type} (a : list A) (m : list bool) : result (list A) :=
  match a, m with
  | [], [] => Ok []
  | x :: a', b :: m' => r <- np_mask a' m' ;; Ok (if b then x :: r else r)
  | _, _ => Raise IndexError
  end.

Section Methods.
Context {T H EState Obs : Type} {C : Collaborators T H EState Obs}.
Local Abbreviation Self := (FractalMC T H).

(** [__init__]: the attributes the subclass sets on top of the object
    [base] built by [Swarm.__init__]; [nw] is the argument [n_walkers] and
    [skip], [horizon], [min_h], [update] are the arguments
    [skip_initial_frames], [time_horizon], [min_horizon],
    [update_parameters]. *)
Definition FractalMC_init (nw : Z) (skip : Z)
    (max_samples_step : option Z) (horizon min_h : Z)
    (update : bool) (base : Self) : result Self :=
  ids <- np_zeros (n_walkers base) ;;
  Ok (mkFractalMC (n_walkers base) (balance base)
        (reward_limit base) (render_every base) (min_dt base)
        (_n_samples_done base) (_i_simulation base) (rewards base)
        (times base) (_end_cond base) (walkers_id base) (_will_clone base)
        (_clone_idx base) (_game_status base)
        skip nw horizon max_samples_step min_h
        (init_max_samples_step max_samples_step nw horizon)
        ids update [] 0%Q None (tree_reset (tree base))
        (hidden base)).

(** [init_actions] (property) *)
Definition init_actions (s : Self) : list Z :=
  get_actions (hidden s) (init_ids s).

Definition init_swarm (state : option EState) (obs : option Obs) (s : Self)
    : result Self :=
  let s := swarm_init_swarm state obs s in
  z <- np_zeros (n_walkers s) ;;
  Ok (set_init_ids z s).

Definition clone (s : Self) : result Self :=
  let s := swarm_clone s in
  match _clone_idx s with
  | None => Ok s
  | Some idx =>
      companions <- np_take (init_ids s) idx ;;
      ids <- np_where (_will_clone s) companions (init_ids s) ;;
      Ok (set_init_ids ids s)
  end.

Definition weight_actions (s : Self) : result nat :=
  counts <- bincount (init_actions s) n_actions ;;
  np_argmax counts.

Definition stop_condition (s : Self) : result (bool * Self) :=
  let stop_hard := _max_samples_step s <? _n_samples_done s in
  stop_score <-
    match reward_limit s with
    | None => Ok false
    | Some limit => m <- np_max (rewards s) ;; Ok (Qle_bool limit m)
    end ;;
  let stop_terminal := np_all (_end_cond s) in
  let status :=
    if stop_hard then "Sample limit reached."%string
    else if stop_score then "Score limit reached."%string
    else if stop_terminal then "All the walkers died."%string
    else "Playing..."%string in
  Ok (stop_hard || stop_score || stop_terminal, set_game_status status s).

(** [if self.render_every is not None and
        self._i_simulation % self.render_every == 0: self._env.render()] *)
Definition maybe_render (s : Self) : result Self :=
  match render_every s with
  | None => Ok s
  | Some r =>
      if r =? 0 then Raise ZeroDivisionError
      else if _i_simulation s mod r =? 0
           then Ok (set_hidden (env_render (hidden s)) s)
           else Ok s
  end.

(** One pass through the body of the [while] loop of [run_swarm]. *)
Definition run_swarm_body (s : Self) : result Self :=
  let s := if 1 <? _i_simulation s then clone_condition s else s in
  let s := step_walkers s in
  s <- (if 1 <? _i_simulation s then clone s
        else if _i_simulation s =? 0
             then Ok (set_init_ids (walkers_id s) s)
             else Ok s) ;;
  maybe_render (set_i_simulation (_i_simulation s + 1) s).

Fixpoint run_swarm_loop (fuel : nat) (s : Self) : result Self :=
  match fuel with
  | O => Raise OutOfFuel
  | S fuel' =>
      c <- stop_condition s ;;
      if fst c then Ok (snd c)
      else s' <- run_swarm_body (snd c) ;; run_swarm_loop fuel' s'
  end.

Definition run_swarm (fuel : nat) (state : option EState)
    (obs : option Obs) (s : Self) : result Self :=
  s <- init_swarm state obs (swarm_reset s) ;;
  run_swarm_loop fuel s.

(** [_update_n_samples] *)
Definition _update_n_samples (s : Self) : Self :=
  let limit_samples :=
    (inject_Z (_max_samples_step s)
     / np_maximum (1 # 10000000) (balance s))%Q in
  let limit_clean := np_clip (Qceiling limit_samples) 2 (max_samples s) in
  set_max_samples_step (Z.max limit_clean (n_walkers s * min_horizon s)) s.

(** [_update_n_walkers] *)
Definition _update_n_walkers (s : Self) : Self :=
  let new_n := (inject_Z (n_walkers s) * balance s)%Q in
  let new_n := np_clip (Qceiling new_n) 2 (Some (max_walkers s)) in
  set_n_walkers new_n s.

(** [_update_balance]: the quotient is the exact rational; numpy's [inf] and
    [nan] (an empty population, a zero horizon) are outside the model. *)
Definition _update_balance (s : Self) : Self :=
  set_balance (np_mean (times s) / inject_Z (time_horizon s))%Q s.

(** [self._max_samples_step == self.max_samples] *)
Definition at_max_samples (s : Self) : bool :=
  match max_samples s with
  | Some m => _max_samples_step s =? m
  | None => false
  end.

Definition update_parameters (s : Self) : Self :=
  let s := set_save_steps (_save_steps s ++ [_n_samples_done s]) s in
  let s := _update_balance s in
  if Qle_bool 1 (balance s) then
    if n_walkers s =? max_walkers s then _update_n_samples s
    else _update_n_walkers s
  else
    if at_max_samples s then _update_n_walkers s
    else _update_n_samples s.

Definition recover_game (index : option Z) (s : Self)
    : result (Branch EState) :=
  index <-
    match index with
    | None =>
        i <- np_argmax_Q (rewards s) ;;
        py_index (walkers_id s) (Z.of_nat i)
    | Some i => Ok i
    end ;;
  get_branch (tree s) index.

(** The entry of [max_rewards] for action [i]. *)
Definition max_reward_of (init_act : list Z) (rewards : list Q) (i : nat)
    : result Q :=
  sel <- np_mask rewards (map (fun a => a =? Z.of_nat i) init_act) ;;
  match sel with
  | [] => Ok 0%Q
  | _ :: _ => np_max sel
  end.

Fixpoint collect {A B : Type} (f : A -> result B) (l : list A)
    : result (list B) :=
  match l with
  | [] => Ok []
  | x :: t => y <- f x ;; r <- collect f t ;; Ok (y :: r)
  end.

Definition get_expected_reward (s : Self) : result (list Q) :=
  let init_act := init_actions s in
  collect (max_reward_of init_act (rewards s)) (seq 0 n_actions).

(** [estimate_distributions] on a [DiscreteModel]; returns the pair
    [(probs, rewards)] and the object after the cycle. *)
Definition estimate_distributions (fuel : nat) (state : EState) (obs : Obs)
    (s : Self) : result (list Q * list Q * Self) :=
  s <- run_swarm fuel (Some state) (Some obs) s ;;
  let s := update_parameters s in
  rewards <- get_expected_reward s ;;
  counts <- bincount (init_actions s) n_actions ;;
  let total := Zsum counts in
  Ok (map (fun c => (inject_Z c / inject_Z total)%Q) counts, rewards, s).

(** The local variables [state, obs, _reward, end, info, i_step] of
    [_skip_initial_frames] and [run_agent]. *)
Record Frame : Type := mkFrame {
  f_state : EState;
  f_obs : Obs;
  f_reward : Q;
  f_end : bool;
  f_info : option bool;
  f_i_step : Z
}.

(** [info.get("terminal", _end)] *)
Definition info_terminal (r : StepResult EState Obs) : bool :=
  match sr_terminal r with
  | Some b => b
  | None => sr_end r
  end.

(** The [for] loop of [_skip_initial_frames], [k] passes left. *)
Fixpoint skip_loop (k : nat) (fr : Frame) (s : Self)
    : traced (Frame * Self) :=
  match k with
  | O => lift (Ok (fr, s))
  | S k' =>
      let i_step := f_i_step fr + 1 in
      let action := 0 in
      let (h, r) := env_step (hidden s) (f_state fr) action (min_dt s) in
      let s := set_hidden h s in
      let dt := env_n_repeat_action (hidden s) in
      _ <~ emit (EvAppendLeaf i_step (i_step - 1) action dt) ;;
      t <~ lift (append_leaf i_step (i_step - 1) (sr_state r) action dt
                   (tree s)) ;;
      let s := set_tree t s in
      let s := set_agent_reward (_agent_reward s + sr_reward r)%Q s in
      let s := set_last_action (Some action) s in
      let end_ := info_terminal r in
      let fr := mkFrame (sr_state r) (sr_obs r) (sr_reward r) end_
                  (sr_terminal r) i_step in
      if end_ then lift (Ok (fr, s)) else skip_loop k' fr s
  end.

Definition _skip_initial_frames (s : Self) : traced (Frame * Self) :=
  let (h, so) := env_reset (hidden s) in
  let s := set_hidden h s in
  let s := set_agent_reward 0%Q s in
  let fr := mkFrame (fst so) (snd so) 0%Q false None 0 in
  skip_loop (Z.to_nat (skip_initial_frames s)) fr s.

(** The guard [not end and self._agent_reward < self.reward_limit]: the
    comparison is reached only when [end] is false, and comparing a number
    with [None] raises [TypeError]. *)
Definition run_agent_guard (fr : Frame) (s : Self) : result bool :=
  if f_end fr then Ok false
  else match reward_limit s with
       | None => Raise TypeError
       | Some limit => Ok (Qltb (_agent_reward s) limit)
       end.

(** The [while] loop of [run_agent]. *)
Fixpoint run_agent_loop (fuel : nat) (render : bool) (fr : Frame) (s : Self)
    : traced Self :=
  match fuel with
  | O => lift (Raise OutOfFuel)
  | S fuel' =>
      go <~ lift (run_agent_guard fr s) ;;
      if negb go then lift (Ok s)
      else
        let i_step := f_i_step fr + 1 in
        _ <~ emit EvRunSwarm ;;
        s <~ lift (run_swarm fuel' (Some (f_state fr)) (Some (f_obs fr)) s) ;;
        action <~ lift (weight_actions s) ;;
        let action := Z.of_nat action in
        let (h, r) := env_step (hidden s) (f_state fr) action (min_dt s) in
        let s := set_hidden h s in
        let dt := env_n_repeat_action (hidden s) in
        _ <~ emit (EvAppendLeaf i_step (i_step - 1) action dt) ;;
        t <~ lift (append_leaf i_step (i_step - 1) (sr_state r) action dt
                     (tree s)) ;;
        let s := set_tree t s in
        let s := set_agent_reward (_agent_reward s + sr_reward r)%Q s in
        let s := set_last_action (Some action) s in
        let fr := mkFrame (sr_state r) (sr_obs r) (sr_reward r)
                    (info_terminal r) (sr_terminal r) i_step in
        let s := if render then set_hidden (env_render (hidden s)) s else s in
        let s := if _update_parameters s then update_parameters s else s in
        run_agent_loop fuel' render fr s
  end.

Definition run_agent (fuel : nat) (render : bool) (s : Self) : traced Self :=
  let s := set_tree (tree_reset (tree s)) s in
  p <~ _skip_initial_frames s ;;
  let fr := fst p in
  let s := set_save_steps [] (snd p) in
  let i_step := f_i_step fr in
  _ <~ emit (EvAppendLeaf i_step (i_step - 1) 0 1) ;;
  t <~ lift (append_leaf i_step (i_step - 1) (f_state fr) 0 1 (tree s)) ;;
  let s := set_tree t s in
  run_agent_loop fuel render fr s.

End Methods.

(** ** Evolution iterations of one cycle *)

Section Cycle.
Context {T H EState Obs : Type} {C : Collaborators T H EState Obs}.
Local Abbreviation Self := (FractalMC T H).

(** [iteration s s']: the loop of [run_swarm], entered in [s], finds the
    stop condition false, runs its body once and is back at the loop test
    in [s']. *)
Definition iteration (s s' : Self) : Prop :=
  exists c, stop_condition s = Ok (false, c) /\ run_swarm_body c = Ok s'.

(** Any number of iterations. *)
Inductive iterations : Self -> Self -> Prop :=
| iterations_none : forall s, iterations s s
| iterations_more : forall s s' s'',
    iteration s s' -> iterations s' s'' -> iterations s s''.

(** [k] iterations, as a function: [None] when the loop stops or raises
    before the [k]-th iteration is over. *)
Fixpoint iterate (k : nat) (s : Self) : option Self :=
  match k with
  | O => Some s
  | S k' =>
      match stop_condition s with
      | Ok (false, c) =>
          match run_swarm_body c with
          | Ok s' => iterate k' s'
          | Raise _ => None
          end
      | _ => None
      end
  end.

(** In the iteration entered in [s], walker [j] takes over the origin id
    [id] of its companion: [clone] finds the walker's will-clone flag set
    and [id] is the origin id found at the walker's companion index. *)
Definition cloned_from (s : Self) (j : nat) (id : Z) : Prop :=
  let sc := swarm_clone (step_walkers (clone_condition s)) in
  exists idx k,
    _clone_idx sc = Some idx /\
    bget (_will_clone sc) j = Some true /\
    bget idx j = Some k /\
    py_index (init_ids s) k = Ok id.

(** Walker [j] traces back to first-level action [i] and holds the
    cumulative reward [x]. *)
Definition took (s : Self) (i j : nat) (x : Q) : Prop :=
  nth_error (init_actions s) j = Some (Z.of_nat i) /\
  nth_error (rewards s) j = Some x.

End Cycle.

(** ** Reading a result

    [a.sum()] of a float array, and what a trace says about the tree. *)


(** The node id, parent id and action of an [append_leaf] call. *)
Definition appended (e : event) : option (Z * Z * Z) :=
  match e with
  | EvAppendLeaf id parent act _ => Some (id, parent, act)
  | EvRunSwarm => None
  end.

(** [k] warm-up calls in a row, starting with node [first]: each node is
    appended under the node with the preceding id, with action 0. *)
Definition warmup_calls (first : Z) (k : nat) : list (option (Z * Z * Z)) :=
  map (fun j => Some (first + Z.of_nat j, first + Z.of_nat j - 1, 0))
    (seq 0 k).

(** An appended node hangs under the node with the preceding id. *)
Definition chained (e : event) : Prop :=
  match e with
  | EvAppendLeaf id parent _ _ => parent = id - 1
  | EvRunSwarm => True
  end.

(** ** A concrete population, environment and tree

    A small deterministic instance of the collaborators, used to run the
    methods on concrete objects.  [hidden] is the next unused node id; the
    environment state is a step counter; the tree keeps every appended node,
    newest first, and accepts every append. *)

Module Toy.

Record node : Type := mkNode {
  node_id : Z;
  parent_id : Z;
  state : Z;
  action : Z;
  repeat_count : Z
}.

Definition Tree : Type := list node.

Definition find_node (t : Tree) (id : Z) : option node :=
  find (fun n => node_id n =? id) t.

Definition toy_append_leaf (id parent st act dt : Z) (t : Tree)
    : result Tree :=
  Ok (mkNode id parent st act dt :: t).

(** Follow parent links from [id] towards the root, at most [fuel] nodes. *)
Fixpoint branch_from (fuel : nat) (t : Tree) (id : Z) (acc : list node)
    : list node :=
  match fuel with
  | O => acc
  | S fuel' =>
      match find_node t id with
      | None => acc
      | Some n => branch_from fuel' t (parent_id n) (n :: acc)
      end
  end.

Definition toy_get_branch (t : Tree) (id : Z) : result (Branch Z) :=
  match find_node t id with
  | None => Raise TreeError
  | Some _ =>
      let b := branch_from (length t) t id [] in
      Ok (map state b, map action b, map repeat_count b)
  end.

Definition Obj : Type := FractalMC Tree Z.

(** The first-level action behind node [id]: nodes 1, 2 carry action 0,
    nodes 3, 4 action 1, and so on in turn. *)
Definition action_of (id : Z) : Z := ((id - 1) / 2) mod 2.

Definition size (s : Obj) : nat := Z.to_nat (n_walkers s).

Definition toy_reset (s : Obj) : Obj :=
  set_i_simulation 0 (set_n_samples_done 0 s).

Definition toy_init_swarm (st : option Z) (ob : option unit) (s : Obj) : Obj :=
  let n := size s in
  set_clone_idx None
    (set_will_clone (repeat false n)
       (set_walkers_id (repeat 0 n)
          (set_end_cond (repeat false n)
             (set_times (repeat 0 n)
                (set_rewards (repeat 0%Q n) s))))).

(** Walker [i] moves to a fresh node (recorded in the tree as a child of
    its previous node), earns reward [i] and one time unit; the step costs
    [cost] samples. *)
Definition toy_step_walkers (cost : Z) (s : Obj) : Obj :=
  let n := length (walkers_id s) in
  let ids := map (fun i => hidden s + Z.of_nat i) (seq 0 n) in
  let rs := map (fun p => (snd p + inject_Z (Z.of_nat (fst p)))%Q)
              (combine (seq 0 n) (rewards s)) in
  let nodes :=
    map (fun p => mkNode (fst p) (snd p) (fst p) (action_of (fst p)) 1)
      (combine ids (walkers_id s)) in
  set_tree (rev nodes ++ tree s)
    (set_hidden (hidden s + Z.of_nat n)
       (set_n_samples_done (_n_samples_done s + cost)
          (set_times (map (Z.add 1) (times s))
             (set_rewards rs (set_walkers_id ids s))))).

(** Walker [i] is paired with walker [i + 1] (the last one with walker 0)
    and clones when its reward is smaller. *)
Definition toy_clone_condition (s : Obj) : Obj :=
  let n := length (walkers_id s) in
  let idx := map (fun i => Z.of_nat (S i mod n)) (seq 0 n) in
  let rs := rewards s in
  let will := map (fun i => Qltb (nth i rs 0%Q) (nth (S i mod n) rs 0%Q))
                (seq 0 n) in
  set_clone_idx (Some idx) (set_will_clone will s).

Definition where_or {A : Type} (c : list bool) (idx : list Z) (a : list A)
    : list A :=
  match (x <- np_take a idx ;; np_where c x a) with
  | Ok r => r
  | Raise _ => a
  end.

Definition toy_clone (s : Obj) : Obj :=
  match _clone_idx s with
  | None => s
  | Some idx =>
      let c := _will_clone s in
      set_walkers_id (where_or c idx (walkers_id s))
        (set_end_cond (where_or c idx (_end_cond s))
           (set_times (where_or c idx (times s))
              (set_rewards (where_or c idx (rewards s)) s)))
  end.

Definition collaborators (cost : Z) : Collaborators Tree Z Z unit := {|
  swarm_reset := toy_reset;
  swarm_init_swarm := toy_init_swarm;
  clone_condition := toy_clone_condition;
  step_walkers := toy_step_walkers cost;
  swarm_clone := toy_clone;
  get_actions := fun _ ids => map action_of ids;
  n_actions := 2;
  env_reset := fun h => (h, (0, tt));
  env_step := fun h st a k => (h, mkStepResult (st + 1) tt 1%Q false None);
  env_render := fun h => h;
  env_n_repeat_action := fun _ => 1;
  tree_reset := fun _ => [];
  append_leaf := toy_append_leaf;
  get_branch := toy_get_branch
|}.

(** The object [Swarm.__init__] leaves for [n] walkers. *)
Definition base (n : Z) (limit : option Q) : Obj :=
  mkFractalMC n 1%Q limit None 1 0 0 [] [] [] [] [] None ""%string
    0 0 0 None 0 0 [] false [] 0%Q None [] 1.

(** [FractalMC(env, model, n_walkers=n, reward_limit=limit,
    skip_initial_frames=skip, max_samples_step=cap)], other arguments at
    their defaults. *)
Definition make (n : Z) (limit : option Q) (skip : Z) (cap : option Z)
    : result Obj :=
  FractalMC_init (C := collaborators n) n skip cap 40 1 false
    (base n limit).

(** [self] when the constructor returned normally. *)
Definition built (r : result Obj) : Obj :=
  match r with
  | Ok s => s
  | Raise _ => base 0 None
  end.

(** Two walkers, [max_samples_step = 10]. *)
Definition two_walkers : Obj := built (make 2 None 0 (Some 10)).

(** Four walkers, [max_samples_step = 4]. *)
Definition four_walkers_short : Obj := built (make 4 None 0 (Some 4)).

(** Four walkers, [max_samples_step = 30]. *)
Definition four_walkers : Obj := built (make 4 None 0 (Some 30)).

(** The object at the first loop test of [run_swarm]. *)
Definition started (cost : Z) (s : Obj) : Obj :=
  built (init_swarm (C := collaborators cost) None None (toy_reset s)).

(** The object after [k] more evolution iterations. *)
Definition after (cost : Z) (k : nat) (s : Obj) : Obj :=
  match iterate (C := collaborators cost) k s with
  | Some s' => s'
  | None => s
  end.

(** [n] walkers whose cycle ended with every walker at elapsed time [t];
    [cap] is the constructor argument [max_samples_step]. *)
Definition deep (n : Z) (cap : option Z) (t : Z) : Obj :=
  set_times (repeat t (Z.to_nat n)) (built (make n None 0 cap)).

(** [estimate_distributions] on four walkers with budget 4: what it
    returns, and its three components. *)
Definition estimated : result (list Q * list Q * Obj) :=
  estimate_distributions (C := collaborators 4) 5 0 tt four_walkers_short.

Definition planned : Obj :=
  match estimated with
  | Ok (_, _, s) => s
  | Raise _ => base 0 None
  end.

Definition planned_probs : list Q :=
  match estimated with
  | Ok (p, _, _) => p
  | Raise _ => []
  end.

Definition planned_rewards : list Q :=
  match estimated with
  | Ok (_, r, _) => r
  | Raise _ => []
  end.

(** Two walkers, [reward_limit = 2], two warm-up frames. *)
Definition warm_agent : Obj := built (make 2 (Some 2%Q) 2 (Some 10)).

(** The warm-up of [run_agent] on [s]: its trace and outcome, the local
    variables it returns and the object it leaves. *)
Definition warmup (s : Obj) : traced (@Frame Z unit * Obj) :=
  _skip_initial_frames (C := collaborators 2)
    (set_tree (tree_reset (Collaborators := collaborators 2) (tree s)) s).

Definition warm_frame (s : Obj) : @Frame Z unit :=
  match snd (warmup s) with
  | Ok p => fst p
  | Raise _ => mkFrame 0 tt 0%Q false None 0
  end.

Definition warm_state (s : Obj) : Obj :=
  match snd (warmup s) with
  | Ok p => snd p
  | Raise _ => s
  end.


(** Balance 1/2 and 1/4 with the budget at its maximum 10. *)
Definition short_many : Obj := deep 100 (Some 10) 20.

(** Balance 1: 100 walkers at depth 40, without and with
    [max_samples_step = 10]. *)
Definition exact_uncapped : Obj := deep 100 None 40.
Definition exact_capped : Obj := deep 100 (Some 10) 40.

(** A cycle of four walkers: at its start, after the first iteration and
    after three more. *)
Definition cycle0 : Obj := started 4 four_walkers.
Definition cycle1 : Obj := after 4 1 cycle0.
Definition cycle4 : Obj := after 4 3 cycle1.

(** Two walkers with [reward_limit = 5], one of them at reward 5. *)
Definition scored : Obj :=
  set_rewards [1%Q; 5%Q] (built (make 2 (Some 5%Q) 0 (Some 10))).

(** Two walkers, both terminal. *)
Definition extinct : Obj := set_end_cond [true; true] two_walkers.

(** [two_walkers] after a whole cycle. *)
Definition finished : Obj :=
  built (run_swarm (C := collaborators 2) 7 None None two_walkers).

(** Two walkers with [render_every = 0]. *)
Definition rendering : Obj :=
  mkFractalMC 2 1%Q None (Some 0) 1 0 0 [] [] [] [] [] None ""%string
    0 2 40 None 1 80 [0; 0] false [] 0%Q None [] 1.

(** The four walkers of [cycle1] after [clone_condition]: walker [i] is
    paired with walker [i + 1], and all but the last will clone. *)
Definition paired : Obj := toy_clone_condition cycle1.

(** The same with a companion index outside the population, and with
    walker 0 paired with itself. *)
Definition mispaired : Obj := set_clone_idx (Some [0; 7; 1; 2]) paired.
Definition selfpaired : Obj := set_clone_idx (Some [0; 2; 3; 0]) paired.

(** 50 of at most 100 walkers, at balance 2. *)
Definition regrow : Obj :=
  set_times (repeat 80 50) (update_parameters short_many).

(** Balance 1/2 without a configured maximum. *)
Definition short_uncapped : Obj := deep 100 None 20.

(** Two walkers with [reward_limit = 0], no warm-up. *)
Definition sated : Obj := built (make 2 (Some 0%Q) 0 (Some 10)).

End Toy.

(** A Python exception, as opposed to the model running out of fuel. *)
Definition python_exn (e : exn) : Prop := e <> OutOfFuel.

(** ** Assumptions on the base class

    [Swarm.reset] followed by [Swarm.init_swarm] starts a cycle: both counters
    are zero.  The base-class methods called inside the loop leave the
    iteration counter and the attributes defined by the subclass alone. *)

Section Contracts.
Context {T H EState Obs : Type} {C : Collaborators T H EState Obs}.
Local Abbreviation Self := (FractalMC T H).

Definition keeps (f : Self -> Self) : Prop :=
  forall s,
    _i_simulation (f s) = _i_simulation s /\
    _max_samples_step (f s) = _max_samples_step s /\
    init_ids (f s) = init_ids s.

Record CycleStart : Prop := {
  start_samples : forall st ob s,
    _n_samples_done (swarm_init_swarm st ob (swarm_reset s)) = 0;
  start_iteration : forall st ob s,
    _i_simulation (swarm_init_swarm st ob (swarm_reset s)) = 0;
  start_budget : forall st ob s,
    _max_samples_step (swarm_init_swarm st ob (swarm_reset s))
    = _max_samples_step s
}.

(** The base-class methods called in the loop leave [render_every]
    alone. *)
Definition keeps_render_every : Prop :=
  forall s : Self,
    render_every (clone_condition s) = render_every s /\
    render_every (step_walkers s) = render_every s /\
    render_every (swarm_clone s) = render_every s.

Record SwarmFrame : Prop := {
  keeps_condition : keeps clone_condition;
  keeps_step : keeps step_walkers;
  keeps_clone : keeps swarm_clone
}.

(** Every evolution iteration consumes [c] samples: stepping the walkers
    counts [c], deciding and applying the clones counts nothing. *)
Record SampleCost (c : Z) : Prop := {
  cost_step : forall s,
    _n_samples_done (step_walkers s) = _n_samples_done s + c;
  cost_condition : forall s,
    _n_samples_done (clone_condition s) = _n_samples_done s;
  cost_clone : forall s,
    _n_samples_done (swarm_clone s) = _n_samples_done s
}.

End Contracts.

(** * Properties *)

(** ** The error monad *)

Lemma bind_ok {A B : Type} (m : result A) (k : A -> result B) (b : B) :
  bind m k = Ok b -> exists a, m = Ok a /\ k a = Ok b.
Proof.
  destruct m as [a|e]; simpl; intros E; [eauto | discriminate].
Qed.

(** ** Exceptions raised by the array operations *)

Lemma py_index_exn {A : Type} (a : list A) (i : Z) (e : exn) :
  py_index a i = Raise e -> e = IndexError.
Proof.
  unfold py_index.
  destruct ((i <? - Z.of_nat (length a)) || (Z.of_nat (length a) <=? i)).
  - now intros [= <-].
  - destruct (nth_error a _); [discriminate | now intros [= <-]].
Qed.

Lemma np_take_exn {A : Type} (a : list A) (idx : list Z) (e : exn) :
  np_take a idx = Raise e -> e = IndexError.
Proof.
  induction idx as [|i t IH]; simpl; [discriminate|].
  destruct (py_index a i) eqn:E; simpl.
  - destruct (np_take a t); simpl; [discriminate|].
    intros [= <-]. now apply IH.
  - intros [= <-]. eapply py_index_exn; eauto.
Qed.

Lemma where_rows_exn {A : Type} (c : list bool) (x y : list A) n i e :
  where_rows c x y i n = Raise e -> e = ValueError.
Proof.
  revert i; induction n as [|n IH]; intros i; simpl; [discriminate|].
  destruct (bget c i); [|now intros [= <-]].
  destruct (bget x i); [|now intros [= <-]].
  destruct (bget y i); [|now intros [= <-]].
  destruct (where_rows c x y (S i) n) eqn:E; simpl; [discriminate|].
  intros [= <-]. eapply IH; eauto.
Qed.

Lemma np_where_exn {A : Type} (c : list bool) (x y : list A) e :
  np_where c x y = Raise e -> e = ValueError.
Proof.
  unfold np_where.
  destruct (bshape _ _); [|now intros [= <-]].
  destruct (bshape _ _); [|now intros [= <-]].
  apply where_rows_exn.
Qed.

Lemma np_zeros_exn n e : np_zeros n = Raise e -> e = ValueError.
Proof.
  unfold np_zeros. destruct (n <? 0); [now intros [= <-] | discriminate].
Qed.

Lemma np_max_exn l e : np_max l = Raise e -> e = ValueError.
Proof. destruct l; simpl; [now intros [= <-]|discriminate]. Qed.

Section RunSwarm.
Context {T H EState Obs : Type} {C : Collaborators T H EState Obs}.
Local Abbreviation Self := (FractalMC T H).

Lemma clone_exn (s : Self) e : clone s = Raise e -> python_exn e.
Proof.
  unfold clone, python_exn.
  destruct (_clone_idx (swarm_clone s)); [|discriminate].
  destruct (np_take _ _) eqn:E1; simpl.
  - destruct (np_where _ _ _) eqn:E2; simpl; [discriminate|].
    intros [= <-]. apply np_where_exn in E2. congruence.
  - intros [= <-]. apply np_take_exn in E1. congruence.
Qed.

Lemma stop_condition_exn (s : Self) e :
  stop_condition s = Raise e -> python_exn e.
Proof.
  unfold stop_condition, python_exn.
  destruct (reward_limit s); simpl; [|discriminate].
  destruct (np_max (rewards s)) eqn:E; simpl; [discriminate|].
  intros [= <-]. apply np_max_exn in E. congruence.
Qed.

(** What [stop_condition] returns and the status it leaves. *)
Lemma stop_condition_ok (s : Self) b s' :
  stop_condition s = Ok (b, s') ->
  exists status,
    s' = set_game_status status s /\
    ((_max_samples_step s <? _n_samples_done s) = true ->
       b = true /\ status = "Sample limit reached."%string) /\
    ((_max_samples_step s <? _n_samples_done s) = false ->
       status <> "Sample limit reached."%string).
Proof.
  unfold stop_condition. intros E.
  apply bind_ok in E. destruct E as (sc & _ & E).
  injection E as <- <-.
  eexists; split; [reflexivity|].
  destruct (_max_samples_step s <? _n_samples_done s); split; intros HH;
    try discriminate; [now split|].
  destruct sc; [discriminate|].
  destruct (np_all (_end_cond s)); discriminate.
Qed.

Lemma maybe_render_exn (s : Self) e :
  maybe_render s = Raise e -> python_exn e.
Proof.
  unfold maybe_render. destruct (render_every s) as [r|]; [|discriminate].
  destruct (r =? 0); [intros [= <-]; discriminate|].
  destruct (_ mod r =? 0); discriminate.
Qed.

(** Rendering touches the environment only. *)
Lemma maybe_render_ok (s s' : Self) :
  maybe_render s = Ok s' -> exists h, s' = set_hidden h s.
Proof.
  unfold maybe_render. destruct (render_every s) as [r|].
  - destruct (r =? 0); [discriminate|].
    destruct (_ mod r =? 0); intros [= <-]; eexists; [reflexivity|].
    instantiate (1 := hidden s). now destruct s.
  - intros [= <-]. exists (hidden s). now destruct s.
Qed.

Lemma run_swarm_body_exn (s : Self) e :
  run_swarm_body s = Raise e -> python_exn e.
Proof.
  unfold run_swarm_body.
  set (s1 := step_walkers _).
  destruct (1 <? _i_simulation s1).
  - destruct (clone s1) eqn:E; simpl.
    + apply maybe_render_exn.
    + intros [= <-]. eapply clone_exn; eauto.
  - destruct (_i_simulation s1 =? 0); simpl; apply maybe_render_exn.
Qed.

Lemma clone_counters (s s' : Self) :
  clone s = Ok s' ->
  _i_simulation s' = _i_simulation (swarm_clone s) /\
  _n_samples_done s' = _n_samples_done (swarm_clone s) /\
  _max_samples_step s' = _max_samples_step (swarm_clone s).
Proof.
  unfold clone. destruct (_clone_idx (swarm_clone s)).
  - intros E. apply bind_ok in E. destruct E as (x & _ & E).
    apply bind_ok in E. destruct E as (y & _ & E).
    injection E as <-. now cbn.
  - now intros [= <-].
Qed.

Section Budget.
Hypothesis frame : SwarmFrame.
Variable c : Z.
Hypothesis cost : SampleCost c.

Lemma run_swarm_body_counters (s s' : Self) :
  run_swarm_body s = Ok s' ->
  _i_simulation s' = _i_simulation s + 1 /\
  _n_samples_done s' = _n_samples_done s + c /\
  _max_samples_step s' = _max_samples_step s.
Proof.
  destruct frame as [Kc Ks Kk]. destruct cost as [Cs Cc Ck].
  unfold run_swarm_body.
  set (s0 := if 1 <? _i_simulation s then clone_condition s else s).
  assert (E0 : _i_simulation s0 = _i_simulation s /\
               _n_samples_done s0 = _n_samples_done s /\
               _max_samples_step s0 = _max_samples_step s).
  { unfold s0. destruct (1 <? _i_simulation s); [|tauto].
    destruct (Kc s) as (? & ? & _). rewrite Cc. tauto. }
  destruct E0 as (I0 & N0 & B0).
  set (s1 := step_walkers s0).
  assert (E1 : _i_simulation s1 = _i_simulation s /\
               _n_samples_done s1 = _n_samples_done s + c /\
               _max_samples_step s1 = _max_samples_step s).
  { unfold s1. destruct (Ks s0) as (? & ? & _). rewrite Cs.
    repeat split; congruence. }
  destruct E1 as (I1 & N1 & B1).
  intros E. apply bind_ok in E. destruct E as (s2 & E2 & E).
  assert (E3 : _i_simulation s2 = _i_simulation s /\
               _n_samples_done s2 = _n_samples_done s + c /\
               _max_samples_step s2 = _max_samples_step s).
  { destruct (1 <? _i_simulation s1).
    - apply clone_counters in E2. destruct E2 as (? & ? & ?).
      destruct (Kk s1) as (? & ? & _). rewrite Ck in *.
      repeat split; congruence.
    - destruct (_i_simulation s1 =? 0); injection E2 as <-; cbn; tauto. }
  destruct E3 as (I3 & N3 & B3).
  apply maybe_render_ok in E. destruct E as (h & ->).
  cbn. repeat split; congruence.
Qed.

Variable b : Z.
Hypothesis c_pos : 0 < c.

(** The loop started after [i] iterations stops after at most [b / c + 1]
    iterations in all, and the hard limit is the cause exactly then. *)
Lemma run_swarm_loop_bound (fuel : nat) (s : Self) :
  _max_samples_step s = b ->
  _n_samples_done s = c * _i_simulation s ->
  0 <= _i_simulation s <= b / c + 1 ->
  (Z.to_nat (b / c + 1 - _i_simulation s) < fuel)%nat ->
  match run_swarm_loop fuel s with
  | Ok s' =>
      _i_simulation s' <= b / c + 1 /\
      _n_samples_done s' = c * _i_simulation s' /\
      (_game_status s' = "Sample limit reached."%string <->
       _i_simulation s' = b / c + 1)
  | Raise e => python_exn e
  end.
Proof.
  pose proof (Z.mul_div_le b c c_pos) as Hlo.
  pose proof (Z.mul_succ_div_gt b c c_pos) as Hhi.
  revert s; induction fuel as [|fuel IH]; intros s Hb Hn Hi Hf; [lia|].
  simpl.
  destruct (stop_condition s) as [[stop s1]|e] eqn:Es; simpl;
    [|eapply stop_condition_exn; eauto].
  apply stop_condition_ok in Es. destruct Es as (status & -> & Hhard & Hsoft).
  rewrite Hb, Hn in Hhard, Hsoft.
  destruct (b <? c * _i_simulation s) eqn:E.
  - destruct (Hhard eq_refl) as (-> & ->). cbn.
    apply Z.ltb_lt in E.
    assert (_i_simulation s = b / c + 1) by nia.
    split; [lia|]. split; [assumption|]. tauto.
  - apply Z.ltb_ge in E. specialize (Hsoft eq_refl).
    assert (Hlt : _i_simulation s <= b / c) by nia.
    destruct stop; cbn.
    + split; [lia|]. split; [assumption|]. split; [congruence|lia].
    + destruct (run_swarm_body (set_game_status status s)) as [s2|e] eqn:Eb;
        simpl; [|eapply run_swarm_body_exn; eauto].
      apply run_swarm_body_counters in Eb. cbn in Eb.
      destruct Eb as (I2 & N2 & B2).
      apply IH; lia || nia.
Qed.


End Budget.

(** C1 (amended). With a per-cycle budget of 10 and 2 samples consumed per
    evolution iteration, [run_swarm] stops at or before 6 iterations: the
    hard limit fires when the samples consumed exceed the budget, which
    first happens after the 6th iteration (12 > 10).  The status is
    ["Sample limit reached."] exactly when the cycle ran all 6 iterations.
    An exception of a collaborating array operation ends the cycle earlier;
    the loop never needs more than 7 evaluations of the stop condition. *)
Theorem run_swarm_sample_limit
    (start : CycleStart) (frame : SwarmFrame) (cost : SampleCost 2)
    (fuel : nat) (st : option EState) (ob : option Obs) (s : Self) :
  _max_samples_step s = 10 ->
  (7 <= fuel)%nat ->
  match run_swarm fuel st ob s with
  | Ok s' =>
      _i_simulation s' <= 6 /\
      _n_samples_done s' = 2 * _i_simulation s' /\
      (_game_status s' = "Sample limit reached."%string <->
       _i_simulation s' = 6)
  | Raise e => python_exn e
  end.
Proof.
  intros Hb Hf. unfold run_swarm, init_swarm.
  set (s0 := swarm_init_swarm st ob (swarm_reset s)).
  destruct (np_zeros (n_walkers s0)) as [z|e] eqn:Ez; simpl.
  - assert (Hc : 0 < 2) by lia.
    pose proof (run_swarm_loop_bound frame cost (b := 10) Hc (fuel := fuel)
                  (set_init_ids z s0)) as L.
    cbn in L. unfold s0 in L.
    rewrite (start_budget start), (start_samples start),
      (start_iteration start) in L.
    change (10 / 2 + 1) with 6 in L.
    apply L; try assumption; lia.
  - apply np_zeros_exn in Ez. unfold python_exn. congruence.
Qed.

End RunSwarm.

(** The concrete population meets the assumptions. *)
Lemma toy_start (cost : Z) : CycleStart (C := Toy.collaborators cost).
Proof. split; intros; reflexivity. Qed.

Lemma toy_frame (cost : Z) : SwarmFrame (C := Toy.collaborators cost).
Proof.
  split; intros s; cbn.
  - repeat split.
  - repeat split.
  - unfold Toy.toy_clone. destruct (_clone_idx s); repeat split.
Qed.

Lemma toy_cost (cost : Z) : SampleCost (C := Toy.collaborators cost) cost.
Proof.
  split; intros s; cbn; try reflexivity.
  unfold Toy.toy_clone. destruct (_clone_idx s); reflexivity.
Qed.

Lemma run_swarm_sample_limit_witness :
  match run_swarm (C := Toy.collaborators 2) 7 None None Toy.two_walkers with
  | Ok s' =>
      _i_simulation s' <= 6 /\
      _n_samples_done s' = 2 * _i_simulation s' /\
      (_game_status s' = "Sample limit reached."%string <->
       _i_simulation s' = 6)
  | Raise e => python_exn e
  end.
Proof.
  apply (run_swarm_sample_limit (C := Toy.collaborators 2)
           (toy_start 2) (toy_frame 2) (toy_cost 2)).
  - reflexivity.
  - lia.
Defined.

(** C1 as stated fails: with [max_samples_step = 10] and two samples per
    iteration the cycle is still playing after 5 iterations (10 samples do
    not exceed 10) and stops only after the 6th, with 12 samples consumed. *)
Lemma run_swarm_runs_six_iterations :
  _max_samples_step Toy.two_walkers = 10 /\
  exists s',
    run_swarm (C := Toy.collaborators 2) 7 None None Toy.two_walkers = Ok s' /\
    _i_simulation s' = 6 /\
    _n_samples_done s' = 12 /\
    _game_status s' = "Sample limit reached."%string /\
    ~ _i_simulation s' <= 5.
Proof.
  split; [reflexivity|].
  eexists. split; [vm_compute; reflexivity|].
  cbn. repeat split. lia.
Qed.

(** ** Array facts used for the origin ids *)

Lemma py_index_In {A : Type} (a : list A) (i : Z) (x : A) :
  py_index a i = Ok x -> In x a.
Proof.
  unfold py_index.
  destruct (_ || _); [discriminate|].
  destruct (nth_error a _) eqn:E; [|discriminate].
  intros [= <-]. eapply nth_error_In; eauto.
Qed.

Lemma bget_In {A : Type} (a : list A) (i : nat) (x : A) :
  bget a i = Some x -> In x a.
Proof.
  unfold bget. destruct a as [|y [|z t]].
  - destruct i; discriminate.
  - intros [= <-]. now left.
  - apply nth_error_In.
Qed.

Lemma bget_nth {A : Type} (a : list A) (i : nat) (x y : A) :
  bget a i = Some x -> nth_error a i = Some y -> x = y.
Proof.
  unfold bget. destruct a as [|z [|w t]].
  - destruct i; discriminate.
  - intros [= <-]. destruct i as [|i]; simpl; [congruence|].
    destruct i; discriminate.
  - congruence.
Qed.

Lemma np_take_nth {A : Type} (a : list A) (idx : list Z) (r : list A) :
  np_take a idx = Ok r ->
  length r = length idx /\
  forall j v, nth_error r j = Some v ->
  exists k, nth_error idx j = Some k /\ py_index a k = Ok v.
Proof.
  revert r. induction idx as [|i t IH]; simpl; intros r E.
  - injection E as <-. split; [reflexivity|]. intros [|j] v; discriminate.
  - apply bind_ok in E. destruct E as (x & Ex & E).
    apply bind_ok in E. destruct E as (r' & Er & E).
    injection E as <-. destruct (IH _ Er) as (Len & Nth).
    split; [simpl; congruence|].
    intros [|j] v; simpl.
    + intros [= <-]. eauto.
    + auto.
Qed.

Lemma np_take_bget {A : Type} (a : list A) (idx : list Z) (r : list A) :
  np_take a idx = Ok r ->
  forall j v, bget r j = Some v ->
  exists k, bget idx j = Some k /\ py_index a k = Ok v.
Proof.
  intros E. apply np_take_nth in E. destruct E as (Len & L).
  intros j v Hv.
  destruct r as [|x [|y r']], idx as [|i [|i' t]]; try discriminate.
  - destruct j; discriminate.
  - simpl in Hv. injection Hv as <-.
    destruct (L 0%nat x eq_refl) as (k & Hk & Hp).
    simpl in Hk. injection Hk as <-. exists i. now split.
  - apply L in Hv. exact Hv.
Qed.

Lemma where_rows_nth {A : Type} (c : list bool) (x y : list A) n i r :
  where_rows c x y i n = Ok r ->
  forall j v, nth_error r j = Some v ->
  exists b u w,
    bget c (i + j) = Some b /\ bget x (i + j) = Some u /\
    bget y (i + j) = Some w /\ v = (if b then u else w).
Proof.
  revert i r; induction n as [|n IH]; intros i r; simpl.
  - intros [= <-] [|j] v; discriminate.
  - destruct (bget c i) as [b|] eqn:Ec; [|discriminate].
    destruct (bget x i) as [u|] eqn:Ex; [|discriminate].
    destruct (bget y i) as [w|] eqn:Ey; [|discriminate].
    intros E. apply bind_ok in E. destruct E as (r' & Er & E).
    injection E as <-. intros [|j] v; simpl.
    + intros [= <-]. exists b, u, w. rewrite Nat.add_0_r. auto.
    + intros Hv. destruct (IH _ _ Er _ _ Hv) as (b' & u' & w' & ? & ? & ? & ?).
      exists b', u', w'. rewrite <- Nat.add_succ_comm. auto.
Qed.

Lemma np_where_nth {A : Type} (c : list bool) (x y r : list A) :
  np_where c x y = Ok r ->
  forall j v, nth_error r j = Some v ->
  exists b u w,
    bget c j = Some b /\ bget x j = Some u /\ bget y j = Some w /\
    v = (if b then u else w).
Proof.
  unfold np_where.
  destruct (bshape _ _); [|discriminate].
  destruct (bshape _ _); [|discriminate].
  intros E j v Hv. eapply where_rows_nth in Hv; [|exact E]. exact Hv.
Qed.

Section Origins.
Context {T H EState Obs : Type} {C : Collaborators T H EState Obs}.
Local Abbreviation Self := (FractalMC T H).
Hypothesis frame : SwarmFrame.

(** What [clone] does to the origin ids: every entry of the result is the
    old entry at that place, or the origin id of the walker's companion,
    taken under the will-clone flag. *)
Lemma clone_init_ids (s s' : Self) :
  clone s = Ok s' ->
  forall j new, nth_error (init_ids s') j = Some new ->
  In new (init_ids s) /\
  (forall old, nth_error (init_ids s) j = Some old -> new <> old ->
     exists idx k,
       _clone_idx (swarm_clone s) = Some idx /\
       bget (_will_clone (swarm_clone s)) j = Some true /\
       bget idx j = Some k /\ py_index (init_ids s) k = Ok new).
Proof.
  destruct (keeps_clone frame s) as (_ & _ & Ki).
  unfold clone. destruct (_clone_idx (swarm_clone s)) as [idx|] eqn:Ei.
  - intros E. apply bind_ok in E. destruct E as (comp & Ec & E).
    apply bind_ok in E. destruct E as (ids & Ew & E).
    injection E as <-. cbn. rewrite Ki in Ec, Ew.
    intros j new Hn.
    destruct (np_where_nth _ _ _ Ew _ Hn) as (b & u & w & Hb & Hu & Hw & ->).
    destruct b.
    + destruct (np_take_bget _ _ Ec _ Hu) as (k & Hk & Hp).
      split; [eapply py_index_In; eauto|].
      intros old _ _. exists idx, k. auto.
    + split; [eapply bget_In; eauto|].
      intros old Ho Hne. exfalso. apply Hne. eapply bget_nth; eauto.
  - intros [= <-] j new Hn. rewrite Ki in Hn. split.
    + eapply nth_error_In; eauto.
    + intros old Ho Hne. congruence.
Qed.

(** The first iteration fixes the origin ids. *)
Lemma first_iteration_ids (s s' : Self) :
  _i_simulation s = 0 -> run_swarm_body s = Ok s' ->
  init_ids s' = walkers_id s' /\ _i_simulation s' = 1.
Proof.
  intros Hi. unfold run_swarm_body. rewrite Hi. cbn.
  destruct (keeps_step frame s) as (Ks & _ & _). rewrite Ks, Hi. cbn.
  intros E. apply maybe_render_ok in E. destruct E as (h & ->).
  cbn. rewrite Ks, Hi. auto.
Qed.

(** Every later iteration changes an origin id only by cloning. *)
Lemma later_iteration_ids (s s' : Self) :
  _i_simulation s <> 0 -> run_swarm_body s = Ok s' ->
  _i_simulation s' = _i_simulation s + 1 /\
  forall j new, nth_error (init_ids s') j = Some new ->
  In new (init_ids s) /\
  (forall old, nth_error (init_ids s) j = Some old -> new <> old ->
     cloned_from s j new).
Proof.
  intros Hi. unfold run_swarm_body, cloned_from.
  destruct (keeps_condition frame s) as (Kci & _ & Kcd).
  destruct (1 <? _i_simulation s) eqn:E1.
  - destruct (keeps_step frame (clone_condition s)) as (Ksi & _ & Ksd).
    rewrite Ksi, Kci, E1.
    intros E. apply bind_ok in E. destruct E as (s2 & Ec & E).
    apply maybe_render_ok in E. destruct E as (h & ->). cbn.
    split.
    { unfold clone in Ec.
      destruct (keeps_clone frame (step_walkers (clone_condition s)))
        as (Kki & _ & _).
      destruct (_clone_idx _).
      - apply bind_ok in Ec. destruct Ec as (? & _ & Ec).
        apply bind_ok in Ec. destruct Ec as (? & _ & Ec).
        injection Ec as <-. cbn. congruence.
      - injection Ec as <-. congruence. }
    intros j new Hn.
    destruct (clone_init_ids _ Ec _ Hn) as (Hin & Hch).
    rewrite Ksd, Kcd in Hin, Hch. split; [exact Hin|].
    intros old Ho Hne. exact (Hch old Ho Hne).
  - destruct (keeps_step frame s) as (Ksi & _ & Ksd).
    rewrite Ksi, E1.
    apply Z.eqb_neq in Hi. rewrite Hi. cbn.
    intros E. apply maybe_render_ok in E. destruct E as (h & ->). cbn.
    rewrite Ksi, Ksd. split; [reflexivity|].
    intros j new Hn. split; [eapply nth_error_In; eauto|].
    intros old Ho Hne. congruence.
Qed.

Lemma stop_condition_frame (s c : Self) b :
  stop_condition s = Ok (b, c) ->
  init_ids c = init_ids s /\ _i_simulation c = _i_simulation s.
Proof.
  intros E. apply stop_condition_ok in E. destruct E as (st & -> & _).
  cbn. auto.
Qed.

Lemma iterations_origin (F : list Z) (s s' : Self) :
  iterations s s' ->
  1 <= _i_simulation s ->
  Forall (fun id => In id F) (init_ids s) ->
  Forall (fun id => In id F) (init_ids s').
Proof.
  induction 1 as [s|s s1 s2 (c & Es & Eb) _ IH]; intros Hi HF; [exact HF|].
  apply stop_condition_frame in Es. destruct Es as (Ed & Ei).
  apply later_iteration_ids in Eb; [|lia].
  destruct Eb as (Ei1 & Hall).
  apply IH; [lia|].
  apply Forall_forall. intros id Hid.
  apply In_nth_error in Hid. destruct Hid as (j & Hj).
  destruct (Hall _ _ Hj) as (Hin & _). rewrite Ed in Hin.
  rewrite Forall_forall in HF. auto.
Qed.

(** C2. In one cycle the first evolution iteration fixes every walker's
    origin id to the walker's own node id; after any number of further
    iterations every origin id is one of those first-level ids, and an
    iteration changes a walker's origin id only when [clone] overwrites it
    with the origin id of the walker's companion, under the walker's
    will-clone flag. *)
Theorem origin_ids_invariant (s0 s1 s' : Self) :
  _i_simulation s0 = 0 ->
  iteration s0 s1 ->
  iterations s1 s' ->
  init_ids s1 = walkers_id s1 /\
  Forall (fun id => In id (init_ids s1)) (init_ids s') /\
  (forall s s2 j old new,
     _i_simulation s <> 0 ->
     run_swarm_body s = Ok s2 ->
     nth_error (init_ids s) j = Some old ->
     nth_error (init_ids s2) j = Some new ->
     new <> old ->
     cloned_from s j new).
Proof.
  intros H0 (c & Es & Eb) It.
  apply stop_condition_frame in Es. destruct Es as (_ & Ei).
  apply first_iteration_ids in Eb; [|congruence].
  destruct Eb as (Eids & E1).
  split; [exact Eids|]. split.
  - eapply iterations_origin; [exact It|lia|].
    apply Forall_forall. intros id Hid. exact Hid.
  - intros s s2 j old new Hi Eb Ho Hn Hne.
    apply later_iteration_ids in Eb; [|exact Hi].
    destruct Eb as (_ & Hall). destruct (Hall _ _ Hn) as (_ & Hch).
    exact (Hch old Ho Hne).
Qed.

End Origins.

Section Reach.
Context {T H EState Obs : Type} {C : Collaborators T H EState Obs}.
Local Abbreviation Self := (FractalMC T H).

Lemma iterate_iterations (k : nat) (s s' : Self) :
  iterate k s = Some s' -> iterations s s'.
Proof.
  revert s; induction k as [|k IH]; simpl; intros s E.
  - injection E as <-. constructor.
  - destruct (stop_condition s) as [[[|] c]|e] eqn:Es; try discriminate.
    destruct (run_swarm_body c) as [s1|e] eqn:Eb; [|discriminate].
    econstructor; [exists c; split; eassumption|]. now apply IH.
Qed.

(** The loop of [run_swarm] is a number of iterations followed by a loop
    test that finds the stop condition true. *)
Lemma run_swarm_loop_iterations (fuel : nat) (s s' : Self) :
  run_swarm_loop fuel s = Ok s' ->
  exists sk, iterations s sk /\ stop_condition sk = Ok (true, s').
Proof.
  revert s; induction fuel as [|fuel IH]; simpl; intros s E; [discriminate|].
  apply bind_ok in E. destruct E as ([b c] & Es & E). simpl in E.
  destruct b.
  - injection E as <-. exists s. split; [constructor | exact Es].
  - apply bind_ok in E. destruct E as (s1 & Eb & E).
    destruct (IH _ E) as (sk & It & Ek).
    exists sk. split; [|exact Ek].
    econstructor; [exists c; split; eassumption | exact It].
Qed.

End Reach.

Lemma origin_ids_invariant_witness :
  init_ids Toy.cycle1 = walkers_id Toy.cycle1 /\
  Forall (fun id => In id (init_ids Toy.cycle1)) (init_ids Toy.cycle4).
Proof.
  assert (I0 : _i_simulation Toy.cycle0 = 0) by reflexivity.
  assert (I1 : iteration (C := Toy.collaborators 4) Toy.cycle0 Toy.cycle1).
  { eexists. split; vm_compute; reflexivity. }
  assert (I2 : iterations (C := Toy.collaborators 4) Toy.cycle1 Toy.cycle4).
  { apply (iterate_iterations (C := Toy.collaborators 4) 3).
    vm_compute. reflexivity. }
  destruct (origin_ids_invariant (C := Toy.collaborators 4)
              (toy_frame 4) I0 I1 I2) as (A & B & _).
  split; assumption.
Defined.

(** ** Adaptive resource control *)

Lemma Qltb_true (a b : Q) : (a < b)%Q -> Qltb a b = true.
Proof.
  intros Hab. unfold Qltb. destruct (Qle_bool b a) eqn:E; [|reflexivity].
  apply Qle_bool_iff in E. exfalso. exact (Qlt_not_le _ _ Hab E).
Qed.


Lemma np_maximum_floor (b : Q) :
  (1 <= b)%Q -> np_maximum (1 # 10000000) b = b.
Proof.
  intros Hb. unfold np_maximum. rewrite Qltb_true; [reflexivity|].
  eapply Qlt_le_trans; [|exact Hb]. reflexivity.
Qed.



Lemma Qceiling_eq (x y : Q) : (x == y)%Q -> Qceiling x = Qceiling y.
Proof.
  intros E. apply Z.le_antisymm; apply Qceiling_resp_le; rewrite E;
    apply Qle_refl.
Qed.

Section Control.
Context {T H : Type}.
Local Abbreviation Self := (FractalMC T H).



(** C5 (amended). When the recomputed balance is exactly 1,
    [update_parameters] leaves the population size and the budget unchanged
    provided the population size lies in [2, max_walkers] and the budget is
    at least 2, at least [n_walkers * min_horizon] and at most the
    configured maximum. *)
Theorem update_parameters_balanced (s : Self) :
  (balance (_update_balance s) == 1)%Q ->
  2 <= n_walkers s <= max_walkers s ->
  2 <= _max_samples_step s ->
  n_walkers s * min_horizon s <= _max_samples_step s ->
  (forall m, max_samples s = Some m -> _max_samples_step s <= m) ->
  n_walkers (update_parameters s) = n_walkers s /\
  _max_samples_step (update_parameters s) = _max_samples_step s.
Proof.
  intros Hb Hn H2 Hl Hm.
  assert (Hb1 : (1 <= balance (_update_balance s))%Q)
    by (rewrite Hb; apply Qle_refl).
  unfold update_parameters.
  change (balance (_update_balance (set_save_steps _ s)))
    with (balance (_update_balance s)).
  pose proof Hb1 as Hb2. apply Qle_bool_iff in Hb2. rewrite Hb2. cbn.
  change (np_mean (times s) / inject_Z (time_horizon s))%Q
    with (balance (_update_balance s)).
  destruct (n_walkers s =? max_walkers s).
  - unfold _update_n_samples. cbn.
    change (np_mean (times s) / inject_Z (time_horizon s))%Q
      with (balance (_update_balance s)).
    rewrite (np_maximum_floor Hb1).
    assert (Ev : Qceiling (inject_Z (_max_samples_step s)
                           / balance (_update_balance s))
                 = _max_samples_step s).
    { rewrite <- (Qceiling_Z (_max_samples_step s)) at 2.
      apply Qceiling_eq. rewrite Hb. field. }
    rewrite Ev. split; [reflexivity|].
    unfold np_clip. destruct (max_samples s) as [m|].
    + specialize (Hm m eq_refl). lia.
    + lia.
  - unfold _update_n_walkers. cbn.
    change (np_mean (times s) / inject_Z (time_horizon s))%Q
      with (balance (_update_balance s)).
    assert (Ev : Qceiling (inject_Z (n_walkers s)
                           * balance (_update_balance s))
                 = n_walkers s).
    { rewrite <- (Qceiling_Z (n_walkers s)) at 2.
      apply Qceiling_eq. rewrite Hb. ring. }
    rewrite Ev. split; [lia | reflexivity].
Qed.

End Control.





Lemma update_parameters_balanced_witness :
  n_walkers (update_parameters Toy.exact_uncapped) = 100 /\
  _max_samples_step (update_parameters Toy.exact_uncapped) = 4000.
Proof.
  apply (update_parameters_balanced (s := Toy.exact_uncapped)).
  - vm_compute. reflexivity.
  - split; vm_compute; discriminate.
  - vm_compute. discriminate.
  - vm_compute. discriminate.
  - intros m Hm. discriminate Hm.
Defined.

(** C5 as stated fails: 100 walkers with [max_samples_step = 10] and
    balance exactly 1.  The budget goes from 10 to
    [n_walkers * min_horizon] = 100. *)
Lemma update_parameters_balanced_budget_changes :
  (balance (_update_balance Toy.exact_capped) == 1)%Q /\
  _max_samples_step Toy.exact_capped = 10 /\
  _max_samples_step (update_parameters Toy.exact_capped) = 100 /\
  _max_samples_step (update_parameters Toy.exact_capped)
  <> _max_samples_step Toy.exact_capped.
Proof.
  repeat split; try (vm_compute; reflexivity).
  vm_compute. discriminate.
Qed.

(** ** Action aggregation *)

Lemma count_of_nonneg (v : Z) (x : list Z) : 0 <= count_of v x.
Proof. unfold count_of. lia. Qed.

Lemma count_of_cons (v w : Z) (x : list Z) :
  count_of v (w :: x) = (if v =? w then 1 else 0) + count_of v x.
Proof.
  unfold count_of. simpl. destruct (v =? w); simpl length; lia.
Qed.

Lemma count_of_absent (v : Z) (x : list Z) : ~ In v x -> count_of v x = 0.
Proof.
  induction x as [|w x IH]; intros Hn; [reflexivity|].
  rewrite count_of_cons, IH by (intros Hi; apply Hn; now right).
  destruct (v =? w) eqn:E; [|reflexivity].
  apply Z.eqb_eq in E. exfalso. apply Hn. now left.
Qed.

Lemma fold_max_above (x : list Z) (v : Z) :
  In v x -> v <= fold_right Z.max (-1) x.
Proof.
  induction x as [|w x IH]; simpl; [tauto|].
  intros [->|Hi]; [lia|]. specialize (IH Hi). lia.
Qed.

Lemma fold_max_floor (x : list Z) : -1 <= fold_right Z.max (-1) x.
Proof. induction x as [|w x IH]; simpl; lia. Qed.

(** What [bincount] returns: entry [i] counts the occurrences of [i]; the
    array covers [minlength] and every value that occurs. *)
Lemma bincount_ok (x : list Z) (m : nat) (counts : list Z) :
  bincount x m = Ok counts ->
  Forall (fun v => 0 <= v) x /\
  (m <= length counts)%nat /\
  (forall v, In v x -> v < Z.of_nat (length counts)) /\
  counts = map (fun i => count_of (Z.of_nat i) x) (seq 0 (length counts)).
Proof.
  unfold bincount. destruct (existsb _ x) eqn:E; [discriminate|].
  intros [= <-]. rewrite length_map, length_seq.
  split; [|split; [lia|split; [|reflexivity]]].
  - apply Forall_forall. intros v Hv.
    destruct (Z.ltb_spec v 0) as [Hlt|]; [|assumption].
    assert (existsb (fun v => v <? 0) x = true); [|congruence].
    apply existsb_exists. exists v. split; [assumption|]. now apply Z.ltb_lt.
  - intros v Hv. apply fold_max_above in Hv.
    pose proof (fold_max_floor x). lia.
Qed.

Lemma bincount_total (x : list Z) (m : nat) :
  Forall (fun v => 0 <= v) x -> exists counts, bincount x m = Ok counts.
Proof.
  intros Hx. unfold bincount.
  destruct (existsb _ x) eqn:E; [|eauto].
  apply existsb_exists in E. destruct E as (v & Hv & Hlt).
  rewrite Forall_forall in Hx. specialize (Hx v Hv).
  apply Z.ltb_lt in Hlt. lia.
Qed.

(** [np.argmax]: the scan keeps the first position of the largest entry
    seen so far. *)
Lemma Zargmax_from_spec (l pre : list Z) (bi : nat) (bv : Z) :
  nth_error pre bi = Some bv ->
  (forall j x, nth_error pre j = Some x -> x <= bv) ->
  (forall j x, (j < bi)%nat -> nth_error pre j = Some x -> x < bv) ->
  exists m,
    nth_error (pre ++ l) (Zargmax_from bi bv (length pre) l) = Some m /\
    (forall j x, nth_error (pre ++ l) j = Some x -> x <= m) /\
    (forall j x, (j < Zargmax_from bi bv (length pre) l)%nat ->
       nth_error (pre ++ l) j = Some x -> x < m).
Proof.
  revert pre bi bv. induction l as [|y t IH]; intros pre bi bv Hb Hle Hlt.
  - simpl. rewrite app_nil_r. eauto.
  - simpl.
    assert (Hlen : length (pre ++ [y]) = S (length pre))
      by (rewrite length_app; simpl; lia).
    assert (Happ : pre ++ y :: t = (pre ++ [y]) ++ t)
      by (rewrite <- app_assoc; reflexivity).
    assert (Hsplit : forall j x, nth_error (pre ++ [y]) j = Some x ->
              nth_error pre j = Some x \/ (j = length pre /\ x = y)).
    { intros j x E. destruct (Nat.lt_ge_cases j (length pre)) as [Hj|Hj].
      - rewrite nth_error_app1 in E by assumption. now left.
      - rewrite nth_error_app2 in E by assumption. right.
        destruct (j - length pre)%nat as [|k] eqn:Ek; simpl in E.
        + split; [lia | congruence].
        + destruct k; discriminate. }
    rewrite Happ, <- Hlen.
    destruct (bv <? y) eqn:E.
    + apply Z.ltb_lt in E. apply IH.
      * rewrite nth_error_app2 by lia. now rewrite Nat.sub_diag.
      * intros j x Hx. destruct (Hsplit _ _ Hx) as [Hp|(_ & ->)]; [|lia].
        specialize (Hle _ _ Hp). lia.
      * intros j x Hj Hx. destruct (Hsplit _ _ Hx) as [Hp|(-> & _)]; [|lia].
        specialize (Hle _ _ Hp). lia.
    + apply Z.ltb_ge in E. apply IH.
      * rewrite nth_error_app1; [assumption|].
        apply nth_error_Some. congruence.
      * intros j x Hx. destruct (Hsplit _ _ Hx) as [Hp|(_ & ->)]; [|lia].
        eauto.
      * intros j x Hj Hx. destruct (Hsplit _ _ Hx) as [Hp|(-> & _)]; [eauto|].
        assert (bi < length pre)%nat by (apply nth_error_Some; congruence).
        lia.
Qed.

Lemma np_argmax_spec (l : list Z) (a : nat) :
  np_argmax l = Ok a ->
  exists m,
    nth_error l a = Some m /\
    (forall j x, nth_error l j = Some x -> x <= m) /\
    (forall j x, (j < a)%nat -> nth_error l j = Some x -> x < m).
Proof.
  destruct l as [|y t]; simpl; [discriminate|]. intros [= <-].
  apply (Zargmax_from_spec t [y] (bi := 0) (bv := y)).
  - reflexivity.
  - intros [|j] x; simpl; [intros [= <-]; lia|]. destruct j; discriminate.
  - intros j x Hj. lia.
Qed.

(** The counts add up to the number of entries counted. *)
Lemma Zsum_indicator (v : Z) (n : nat) :
  0 <= v < Z.of_nat n ->
  Zsum (map (fun i => if Z.of_nat i =? v then 1 else 0) (seq 0 n)) = 1.
Proof.
  intros Hv.
  assert (G : forall k start,
            Zsum (map (fun i => if Z.of_nat i =? v then 1 else 0)
                    (seq start k))
            = if (Z.of_nat start <=? v) && (v <? Z.of_nat (start + k))
              then 1 else 0).
  { induction k as [|k IH]; intros start; simpl.
    - destruct (Z.leb_spec (Z.of_nat start) v),
        (Z.ltb_spec v (Z.of_nat (start + 0)));
        simpl; lia.
    - rewrite IH.
      destruct (Z.eqb_spec (Z.of_nat start) v),
        (Z.leb_spec (Z.of_nat (S start)) v),
        (Z.ltb_spec v (Z.of_nat (S start + k))),
        (Z.leb_spec (Z.of_nat start) v),
        (Z.ltb_spec v (Z.of_nat (start + S k))); simpl; lia. }
  rewrite G. simpl.
  destruct (Z.leb_spec 0 v), (Z.ltb_spec v (Z.of_nat n)); simpl; lia.
Qed.

Lemma Zsum_map_add (f g : nat -> Z) (l : list nat) :
  Zsum (map (fun i => f i + g i) l) = Zsum (map f l) + Zsum (map g l).
Proof. induction l as [|i l IH]; simpl; lia. Qed.

Lemma Zsum_counts (x : list Z) (n : nat) :
  Forall (fun v => 0 <= v < Z.of_nat n) x ->
  Zsum (map (fun i => count_of (Z.of_nat i) x) (seq 0 n))
  = Z.of_nat (length x).
Proof.
  induction 1 as [|v x Hv _ IH].
  - induction (seq 0 n) as [|i l IHl]; [reflexivity|].
    cbn in *. exact IHl.
  - rewrite (map_ext _ (fun i => (if Z.of_nat i =? v then 1 else 0)
                                 + count_of (Z.of_nat i) x))
      by (intros i; apply count_of_cons).
    rewrite Zsum_map_add, IH, Zsum_indicator by assumption.
    simpl length. lia.
Qed.

Lemma bincount_sum (x : list Z) (m : nat) (counts : list Z) :
  bincount x m = Ok counts -> Zsum counts = Z.of_nat (length x).
Proof.
  intros E. apply bincount_ok in E. destruct E as (Hx & _ & Hup & Hc).
  rewrite Hc. apply Zsum_counts.
  rewrite Forall_forall in *. intros v Hv. split; auto.
Qed.

Lemma nth_error_map_seq_lt {A : Type} (f : nat -> A) (n j : nat) :
  (j < n)%nat -> nth_error (map f (seq 0 n)) j = Some (f j).
Proof.
  intros Hj. rewrite nth_error_map, nth_error_seq.
  destruct (Nat.ltb_spec j n); [reflexivity | lia].
Qed.

(** Entry [j] of the counts, for every integer [j]. *)
Lemma bincount_entry (x : list Z) (m : nat) (counts : list Z) (j : Z) :
  bincount x m = Ok counts ->
  (0 <= j < Z.of_nat (length counts) /\
   nth_error counts (Z.to_nat j) = Some (count_of j x)) \/
  ((j < 0 \/ Z.of_nat (length counts) <= j) /\ count_of j x = 0).
Proof.
  intros E. apply bincount_ok in E. destruct E as (Hx & _ & Hup & Hc).
  rewrite Forall_forall in Hx.
  destruct (Z.lt_ge_cases j 0) as [Hn|Hn].
  - right. split; [now left|]. apply count_of_absent.
    intros Hi. specialize (Hx _ Hi). lia.
  - destruct (Z.lt_ge_cases j (Z.of_nat (length counts))) as [Hl|Hl].
    + left. split; [lia|]. rewrite Hc at 1.
      rewrite nth_error_map_seq_lt by lia. now rewrite Z2Nat.id.
    + right. split; [now right|]. apply count_of_absent.
      intros Hi. specialize (Hup _ Hi). lia.
Qed.

Section Aggregation.
Context {T H EState Obs : Type} {C : Collaborators T H EState Obs}.
Local Abbreviation Self := (FractalMC T H).

(** C6. For a discrete action space [weight_actions] returns the action id
    with the most walkers tracing back to it, the lowest such id on a tie;
    it returns whenever no origin action is negative and the action space
    is not empty.  For origin actions [0,0,1,1] in a 2-action space it
    returns 0, and the probability vector of [estimate_distributions] is
    the counts divided by the number of walkers counted, here [1/2, 1/2]. *)
Theorem weight_actions_plurality (s : Self) :
  let acts := init_actions s in
  (forall a, weight_actions s = Ok a ->
     (forall j, count_of j acts <= count_of (Z.of_nat a) acts) /\
     (forall j, 0 <= j < Z.of_nat a ->
        count_of j acts < count_of (Z.of_nat a) acts)) /\
  (Forall (fun v => 0 <= v) acts -> (0 < n_actions)%nat ->
   exists a, weight_actions s = Ok a) /\
  (n_actions = 2%nat -> acts = [0; 0; 1; 1] ->
   weight_actions s = Ok 0%nat) /\
  (forall fuel st ob s0 probs rs,
     estimate_distributions fuel st ob s0 = Ok (probs, rs, s) ->
     (forall i p, nth_error probs i = Some p ->
        p = (inject_Z (count_of (Z.of_nat i) acts)
             / inject_Z (Z.of_nat (length acts)))%Q) /\
     (n_actions = 2%nat -> acts = [0; 0; 1; 1] ->
      Forall2 Qeq probs [1 # 2; 1 # 2]%Q)).
Proof.
  intros acts. split; [|split; [|split]].
  - intros a E. unfold weight_actions in E. fold acts in E.
    apply bind_ok in E. destruct E as (counts & Eb & Ea).
    apply np_argmax_spec in Ea. destruct Ea as (m & Hm & Hmax & Hfirst).
    assert (Ha : (a < length counts)%nat)
      by (apply nth_error_Some; congruence).
    destruct (@bincount_entry _ _ _ (Z.of_nat a) Eb)
      as [(_ & Na)|(Hout & _)]; [|lia].
    rewrite Nat2Z.id, Hm in Na. injection Na as ->.
    split.
    + (* no id has more walkers *)
      intros j.
      destruct (@bincount_entry _ _ _ j Eb) as [(_ & Nj)|(_ & ->)].
      * exact (Hmax _ _ Nj).
      * apply count_of_nonneg.
    + (* lower ids have fewer *)
      intros j Hj.
      destruct (@bincount_entry _ _ _ j Eb) as [(_ & Nj)|(Hout & _)];
        [|lia].
      apply (Hfirst (Z.to_nat j)); [lia | exact Nj].
  - (* the vote returns *)
    intros Hx Hn. unfold weight_actions. fold acts.
    destruct (@bincount_total _ n_actions Hx) as (counts & Eb).
    rewrite Eb. simpl.
    pose proof (bincount_ok _ _ Eb) as (_ & Hlen & _).
    destruct counts as [|c t]; [simpl in Hlen; lia|].
    simpl. eauto.
  - (* [0,0,1,1] *)
    intros Hn Ha. unfold weight_actions. fold acts. rewrite Hn, Ha.
    reflexivity.
  - (* the probability vector *)
    intros fuel st ob s0 probs rs E. unfold estimate_distributions in E.
    apply bind_ok in E. destruct E as (s1 & _ & E).
    apply bind_ok in E. destruct E as (rs1 & _ & E).
    apply bind_ok in E. destruct E as (counts & Eb & E).
    injection E as <- _ <-. fold acts in Eb.
    split.
    + intros i p Hp. rewrite nth_error_map in Hp.
      destruct (nth_error counts i) as [c|] eqn:Ec; [|discriminate].
      simpl in Hp. injection Hp as <-.
      rewrite (bincount_sum _ _ Eb).
      assert (Hi : (i < length counts)%nat)
        by (apply nth_error_Some; congruence).
      destruct (@bincount_entry _ _ _ (Z.of_nat i) Eb)
        as [(_ & Ni)|(Hout & _)]; [|lia].
      rewrite Nat2Z.id, Ec in Ni. now injection Ni as ->.
    + intros Hn Ha. rewrite Hn, Ha in Eb. injection Eb as <-.
      repeat constructor.
Qed.

End Aggregation.

Lemma toy_estimated :
  estimate_distributions (C := Toy.collaborators 4) 5 0 tt
    Toy.four_walkers_short
  = Ok (Toy.planned_probs, Toy.planned_rewards, Toy.planned).
Proof. vm_compute. reflexivity. Qed.

Lemma weight_actions_plurality_witness :
  weight_actions (C := Toy.collaborators 4) Toy.planned = Ok 0%nat /\
  Forall2 Qeq Toy.planned_probs [1 # 2; 1 # 2]%Q.
Proof.
  destruct (weight_actions_plurality (C := Toy.collaborators 4) Toy.planned)
    as (_ & _ & A & B).
  split.
  - apply A; reflexivity.
  - destruct (B _ _ _ _ _ _ toy_estimated) as (_ & B2).
    apply B2; reflexivity.
Defined.

(** ** Expected rewards *)

Lemma Qltb_false_le (a b : Q) : Qltb a b = false -> (b <= a)%Q.
Proof.
  unfold Qltb. destruct (Qle_bool b a) eqn:E; [|discriminate].
  intros _. now apply Qle_bool_iff.
Qed.

Lemma Qltb_true_lt (a b : Q) : Qltb a b = true -> (a < b)%Q.
Proof.
  unfold Qltb. destruct (Qle_bool b a) eqn:E; [discriminate|].
  intros _. apply Qnot_le_lt. intros Hle.
  apply Qle_bool_iff in Hle. congruence.
Qed.

(** [a.max()] is an entry of the array and no entry is larger. *)
Lemma Qmax_from_spec (l : list Q) (m : Q) :
  (Qmax_from m l = m \/ In (Qmax_from m l) l) /\
  (m <= Qmax_from m l)%Q /\
  (forall x, In x l -> (x <= Qmax_from m l)%Q).
Proof.
  revert m. induction l as [|y t IH]; intros m; simpl.
  - split; [now left|]. split; [apply Qle_refl | tauto].
  - destruct (IH (if Qltb m y then y else m)) as (Hin & Hm & Hall).
    destruct (Qltb m y) eqn:E.
    + apply Qltb_true_lt in E. split; [|split].
      * destruct Hin as [->|Hin]; [right; now left | right; now right].
      * eapply Qle_trans; [apply Qlt_le_weak; exact E | exact Hm].
      * intros x [<-|Hx]; [exact Hm | auto].
    + apply Qltb_false_le in E. split; [|split].
      * destruct Hin as [->|Hin]; [now left | right; now right].
      * exact Hm.
      * intros x [<-|Hx]; [eapply Qle_trans; eauto | auto].
Qed.

Lemma np_max_spec (l : list Q) (r : Q) :
  np_max l = Ok r -> In r l /\ forall x, In x l -> (x <= r)%Q.
Proof.
  destruct l as [|y t]; simpl; [discriminate|]. intros [= <-].
  destruct (Qmax_from_spec t y) as (Hin & Hm & Hall). split.
  - destruct Hin as [->|Hin]; [now left | now right].
  - intros x [<-|Hx]; auto.
Qed.

(** [a[mask]] keeps exactly the entries whose mask bit is set. *)
Lemma np_mask_spec {A : Type} (a : list A) (m : list bool) (sel : list A) :
  np_mask a m = Ok sel ->
  forall x, In x sel <->
            exists j, nth_error a j = Some x /\ nth_error m j = Some true.
Proof.
  revert m sel. induction a as [|y a IH]; intros [|b m] sel; simpl;
    try discriminate.
  - intros [= <-] x. split; [intros []|].
    intros ([|j] & Hj & _); discriminate.
  - intros E. apply bind_ok in E. destruct E as (r & Er & E).
    injection E as <-. intros x. specialize (IH _ _ Er x).
    split.
    + intros Hx.
      assert (Hcase : (b = true /\ x = y) \/ In x r).
      { destruct b; [destruct Hx as [<-|Hx]; auto | auto]. }
      destruct Hcase as [(-> & ->)|Hr].
      * exists 0%nat. now split.
      * apply IH in Hr. destruct Hr as (j & Ha & Hm).
        exists (S j). now split.
    + intros ([|j] & Ha & Hm); simpl in Ha, Hm.
      * injection Ha as ->. injection Hm as ->. now left.
      * assert (In x r) by (apply IH; eauto).
        destruct b; [now right | assumption].
Qed.

Lemma collect_spec {A B : Type} (f : A -> result B) (l : list A)
    (rs : list B) :
  collect f l = Ok rs ->
  length rs = length l /\
  forall i y, nth_error rs i = Some y ->
              exists x, nth_error l i = Some x /\ f x = Ok y.
Proof.
  revert rs. induction l as [|x l IH]; simpl; intros rs E.
  - injection E as <-. split; [reflexivity|]. intros [|i] y; discriminate.
  - apply bind_ok in E. destruct E as (y0 & Ey & E).
    apply bind_ok in E. destruct E as (r & Er & E).
    injection E as <-. destruct (IH _ Er) as (Hlen & Hnth).
    split; [simpl; congruence|].
    intros [|i] y; simpl.
    + intros [= <-]. eauto.
    + auto.
Qed.

Section ExpectedReward.
Context {T H EState Obs : Type} {C : Collaborators T H EState Obs}.
Local Abbreviation Self := (FractalMC T H).

Lemma max_reward_of_spec (s : Self) (i : nat) (r : Q) :
  max_reward_of (init_actions s) (rewards s) i = Ok r ->
  ((forall j x, ~ took s i j x) -> r = 0%Q) /\
  ((exists j x, took s i j x) ->
   (exists j, took s i j r) /\
   (forall j x, took s i j x -> (x <= r)%Q)).
Proof.
  unfold max_reward_of, took. intros E.
  apply bind_ok in E. destruct E as (sel & Es & E).
  pose proof (np_mask_spec _ _ Es) as Hsel.
  assert (Hmask : forall j,
            nth_error (map (fun a => a =? Z.of_nat i) (init_actions s)) j
            = Some true <->
            nth_error (init_actions s) j = Some (Z.of_nat i)).
  { intros j. rewrite nth_error_map.
    destruct (nth_error (init_actions s) j) as [a|]; simpl.
    - split.
      + intros [= Ea]. apply Z.eqb_eq in Ea. congruence.
      + intros [= ->]. now rewrite Z.eqb_refl.
    - split; discriminate. }
  assert (Hin : forall x, In x sel <-> exists j, took s i j x).
  { intros x. rewrite Hsel. unfold took. split.
    - intros (j & Hr & Hm). exists j. split; [now apply Hmask | exact Hr].
    - intros (j & Ha & Hr). exists j. split; [exact Hr | now apply Hmask]. }
  unfold took in Hin.
  destruct sel as [|y t].
  - injection E as <-. split; [reflexivity|].
    intros (j & x & Hx). exfalso. apply (proj2 (Hin x)). eauto.
  - apply np_max_spec in E. destruct E as (Hr & Hmax). split.
    + intros Hnone. exfalso.
      destruct (proj1 (Hin y) (or_introl eq_refl)) as (j & Hj).
      exact (Hnone j y Hj).
    + intros _. split.
      * now apply Hin.
      * intros j x Hx. apply Hmax. apply Hin. eauto.
Qed.

(** C7. The reward vector returned by [estimate_distributions] is the one
    [get_expected_reward] computes; it has one entry per action id, and
    entry [i] is the largest cumulative reward among the walkers whose
    origin action is [i], or 0 when no walker took [i]. *)
Theorem get_expected_reward_max
    (fuel : nat) (st : EState) (ob : Obs) (s0 s : Self) (probs rs : list Q) :
  estimate_distributions fuel st ob s0 = Ok (probs, rs, s) ->
  get_expected_reward s = Ok rs /\
  length rs = n_actions /\
  forall i r, nth_error rs i = Some r ->
    ((forall j x, ~ took s i j x) -> r = 0%Q) /\
    ((exists j x, took s i j x) ->
     (exists j, took s i j r) /\
     (forall j x, took s i j x -> (x <= r)%Q)).
Proof.
  unfold estimate_distributions. intros E.
  apply bind_ok in E. destruct E as (s1 & _ & E).
  apply bind_ok in E. destruct E as (rs1 & Er & E).
  apply bind_ok in E. destruct E as (counts & _ & E).
  injection E as _ <- <-.
  split; [exact Er|].
  unfold get_expected_reward in Er. apply collect_spec in Er.
  destruct Er as (Hlen & Hnth). rewrite length_seq in Hlen.
  split; [exact Hlen|].
  intros i r Hr. destruct (Hnth _ _ Hr) as (k & Hk & Hf).
  assert (k = i).
  { assert (i < n_actions)%nat
      by (rewrite <- Hlen; apply nth_error_Some; congruence).
    rewrite nth_error_seq in Hk.
    destruct (Nat.ltb_spec i n_actions); [|lia]. simpl in Hk. congruence. }
  subst k. now apply max_reward_of_spec.
Qed.

End ExpectedReward.

Lemma get_expected_reward_max_witness :
  get_expected_reward (C := Toy.collaborators 4) Toy.planned
  = Ok Toy.planned_rewards /\
  length Toy.planned_rewards = 2%nat.
Proof.
  destruct (get_expected_reward_max (C := Toy.collaborators 4) _ _ _ _
              toy_estimated) as (A & B & _).
  split; [exact A | exact B].
Defined.

(** ** Branch recovery *)

(** [rewards.argmax()]: the scan keeps the first position of the largest
    reward seen so far. *)
Lemma Qargmax_from_spec (l pre : list Q) (bi : nat) (bv : Q) :
  nth_error pre bi = Some bv ->
  (forall j x, nth_error pre j = Some x -> (x <= bv)%Q) ->
  (forall j x, (j < bi)%nat -> nth_error pre j = Some x -> (x < bv)%Q) ->
  exists m,
    nth_error (pre ++ l) (Qargmax_from bi bv (length pre) l) = Some m /\
    (forall j x, nth_error (pre ++ l) j = Some x -> (x <= m)%Q) /\
    (forall j x, (j < Qargmax_from bi bv (length pre) l)%nat ->
       nth_error (pre ++ l) j = Some x -> (x < m)%Q).
Proof.
  revert pre bi bv. induction l as [|y t IH]; intros pre bi bv Hb Hle Hlt.
  - simpl. rewrite app_nil_r. eauto.
  - simpl.
    assert (Hlen : length (pre ++ [y]) = S (length pre))
      by (rewrite length_app; simpl; lia).
    assert (Happ : pre ++ y :: t = (pre ++ [y]) ++ t)
      by (rewrite <- app_assoc; reflexivity).
    assert (Hsplit : forall j x, nth_error (pre ++ [y]) j = Some x ->
              nth_error pre j = Some x \/ (j = length pre /\ x = y)).
    { intros j x E. destruct (Nat.lt_ge_cases j (length pre)) as [Hj|Hj].
      - rewrite nth_error_app1 in E by assumption. now left.
      - rewrite nth_error_app2 in E by assumption. right.
        destruct (j - length pre)%nat as [|k] eqn:Ek; simpl in E.
        + split; [lia | congruence].
        + destruct k; discriminate. }
    rewrite Happ, <- Hlen.
    destruct (Qltb bv y) eqn:E.
    + apply Qltb_true_lt in E. apply IH.
      * rewrite nth_error_app2 by lia. now rewrite Nat.sub_diag.
      * intros j x Hx.
        destruct (Hsplit _ _ Hx) as [Hp|(_ & ->)]; [|apply Qle_refl].
        eapply Qle_trans; [exact (Hle _ _ Hp) | now apply Qlt_le_weak].
      * intros j x Hj Hx. destruct (Hsplit _ _ Hx) as [Hp|(-> & _)]; [|lia].
        eapply Qle_lt_trans; [exact (Hle _ _ Hp) | exact E].
    + apply Qltb_false_le in E. apply IH.
      * rewrite nth_error_app1; [assumption|].
        apply nth_error_Some. congruence.
      * intros j x Hx. destruct (Hsplit _ _ Hx) as [Hp|(_ & ->)]; eauto.
      * intros j x Hj Hx. destruct (Hsplit _ _ Hx) as [Hp|(-> & _)]; [eauto|].
        assert (bi < length pre)%nat by (apply nth_error_Some; congruence).
        lia.
Qed.

Lemma np_argmax_Q_spec (l : list Q) :
  l <> [] ->
  exists i m,
    np_argmax_Q l = Ok i /\
    nth_error l i = Some m /\
    (forall j x, nth_error l j = Some x -> (x <= m)%Q) /\
    (forall j x, (j < i)%nat -> nth_error l j = Some x -> (x < m)%Q).
Proof.
  destruct l as [|y t]; [congruence|]. intros _. simpl.
  destruct (Qargmax_from_spec t [y] (bi := 0) (bv := y)) as (m & Hm);
    [reflexivity| | |].
  - intros [|j] x; simpl; [intros [= <-]; apply Qle_refl|].
    destruct j; discriminate.
  - intros j x Hj. lia.
  - exists (Qargmax_from 0 y 1 t), m. split; [reflexivity | exact Hm].
Qed.

Lemma py_index_nat {A : Type} (a : list A) (i : nat) (x : A) :
  nth_error a i = Some x -> py_index a (Z.of_nat i) = Ok x.
Proof.
  intros E.
  assert (Hi : (i < length a)%nat) by (apply nth_error_Some; congruence).
  unfold py_index.
  destruct (Z.ltb_spec (Z.of_nat i) (- Z.of_nat (length a))); [lia|].
  destruct (Z.leb_spec (Z.of_nat (length a)) (Z.of_nat i)); [lia|].
  simpl. destruct (Z.ltb_spec (Z.of_nat i) 0); [lia|].
  now rewrite Nat2Z.id, E.
Qed.

Section Recovery.
Context {T H EState Obs : Type} {C : Collaborators T H EState Obs}.
Local Abbreviation Self := (FractalMC T H).

(** C8 (amended). Called with no index, [recover_game] returns what
    [get_branch] gives for the current node id ([walkers_id]) of the
    best-reward walker: the first walker whose cumulative reward is
    maximal. *)
Theorem recover_game_best_walker (s : Self) :
  rewards s <> [] ->
  (length (rewards s) <= length (walkers_id s))%nat ->
  exists i best id,
    nth_error (rewards s) i = Some best /\
    (forall j x, nth_error (rewards s) j = Some x -> (x <= best)%Q) /\
    (forall j x, (j < i)%nat -> nth_error (rewards s) j = Some x ->
       (x < best)%Q) /\
    nth_error (walkers_id s) i = Some id /\
    recover_game None s = get_branch (tree s) id.
Proof.
  intros Hne Hlen.
  destruct (np_argmax_Q_spec Hne) as (i & best & Ea & Hb & Hmax & Hfirst).
  assert (Hi : (i < length (walkers_id s))%nat).
  { assert (i < length (rewards s))%nat
      by (apply nth_error_Some; congruence). lia. }
  destruct (nth_error (walkers_id s) i) as [id|] eqn:Ew;
    [|apply nth_error_None in Ew; lia].
  exists i, best, id. repeat split; try assumption.
  unfold recover_game. rewrite Ea. simpl.
  now rewrite (py_index_nat _ _ Ew).
Qed.

End Recovery.

Lemma recover_game_best_walker_witness :
  exists i best id,
    nth_error (rewards Toy.planned) i = Some best /\
    nth_error (walkers_id Toy.planned) i = Some id /\
    recover_game (C := Toy.collaborators 4) None Toy.planned
    = get_branch (Collaborators := Toy.collaborators 4)
        (tree Toy.planned) id.
Proof.
  assert (Hne : rewards Toy.planned <> []) by (vm_compute; discriminate).
  assert (Hlen : (length (rewards Toy.planned)
                  <= length (walkers_id Toy.planned))%nat)
    by (vm_compute; lia).
  destruct (recover_game_best_walker (C := Toy.collaborators 4)
              Toy.planned Hne Hlen)
    as (i & best & id & A & _ & _ & B & D).
  exists i, best, id. auto.
Defined.

(** C8 as stated fails: after a cycle of two iterations the best walker
    (index 3) has origin id 4 and current node id 8; [recover_game] returns
    the branch ending at node 8, not the one ending at node 4. *)
Lemma recover_game_not_origin :
  np_argmax_Q (rewards Toy.planned) = Ok 3%nat /\
  nth_error (init_ids Toy.planned) 3 = Some 4 /\
  nth_error (walkers_id Toy.planned) 3 = Some 8 /\
  recover_game (C := Toy.collaborators 4) None Toy.planned
  = Ok ([4; 8], [1; 1], [1; 1]) /\
  get_branch (Collaborators := Toy.collaborators 4) (tree Toy.planned) 4
  = Ok ([4], [1], [1]) /\
  recover_game (C := Toy.collaborators 4) None Toy.planned
  <> get_branch (Collaborators := Toy.collaborators 4) (tree Toy.planned) 4.
Proof.
  repeat split; try (vm_compute; reflexivity).
  vm_compute. discriminate.
Qed.

(** ** The episode loop *)

Lemma tbind_emit {B : Type} (e : event) (k : unit -> traced B) :
  tbind (emit e) k = (e :: fst (k tt), snd (k tt)).
Proof. unfold tbind, emit. now destruct (k tt). Qed.

Lemma tbind_lift_ok {A B : Type} (a : A) (k : A -> traced B) :
  tbind (lift (Ok a)) k = k a.
Proof. unfold tbind, lift. now destruct (k a). Qed.

Lemma tbind_lift_raise {A B : Type} (e : exn) (k : A -> traced B) :
  tbind (lift (Raise e)) k = ([], Raise e).
Proof. reflexivity. Qed.

Lemma tbind_ok {A B : Type} (tr : list event) (a : A) (k : A -> traced B) :
  tbind (tr, Ok a) k = (tr ++ fst (k a), snd (k a)).
Proof. unfold tbind. now destruct (k a). Qed.

Lemma tbind_raise {A B : Type} (tr : list event) (e : exn)
    (k : A -> traced B) :
  tbind (tr, Raise e) k = (tr, Raise e).
Proof. reflexivity. Qed.

Section Episode.
Context {T H EState Obs : Type} {C : Collaborators T H EState Obs}.
Local Abbreviation Self := (FractalMC T H).
Local Abbreviation Frame := (@Frame EState Obs).

(** The warm-up loop never plans, keeps the reward limit, and when it runs
    to the end without a terminal step it has appended [k] nodes, the last
    one with the id it returns. *)
Lemma skip_loop_spec (k : nat) (fr : Frame) (s : Self) :
  ~ In EvRunSwarm (fst (skip_loop k fr s)) /\
  forall fr' s', snd (skip_loop k fr s) = Ok (fr', s') ->
    reward_limit s' = reward_limit s /\
    (f_end fr = false -> f_end fr' = false ->
     f_i_step fr' = f_i_step fr + Z.of_nat k /\
     ((0 < k)%nat ->
      exists tr0 dt,
        fst (skip_loop k fr s)
        = tr0 ++ [EvAppendLeaf (f_i_step fr') (f_i_step fr' - 1) 0 dt])).
Proof.
  revert fr s. induction k as [|k IH]; intros fr s.
  - simpl. split; [tauto|]. intros fr' s' [= <- <-].
    split; [reflexivity|]. intros _ _. split; [lia|lia].
  - cbn [skip_loop].
    destruct (env_step (hidden s) (f_state fr) 0 (min_dt s)) as [h r].
    rewrite tbind_emit.
    set (i := f_i_step fr + 1).
    set (dt := env_n_repeat_action (hidden (set_hidden h s))).
    destruct (append_leaf i (i - 1) (sr_state r) 0 dt (tree (set_hidden h s)))
      as [t|e].
    + rewrite tbind_lift_ok.
      destruct (info_terminal r) eqn:Et.
      * cbn. split; [intros [Hd|[]]; discriminate|].
        intros fr' s' [= <- <-]. split; [reflexivity|].
        intros _ Hend. cbn in Hend. congruence.
      * match goal with
        | |- context [skip_loop k ?f ?st] =>
            destruct (IH f st) as (Hno & Hok);
            set (fr1 := f) in *; set (s1 := st) in *
        end.
        cbn [fst snd]. split.
        { intros [Hd|Hin]; [discriminate | exact (Hno Hin)]. }
        intros fr' s' E. destruct (Hok _ _ E) as (Hl & Hrest).
        split; [exact Hl|].
        intros _ Hend.
        destruct (Hrest eq_refl Hend) as (Hi & Hlast).
        change (f_i_step fr1) with (f_i_step fr + 1) in Hi.
        split; [lia|]. intros _.
        destruct k as [|k'].
        -- cbn in E. injection E as <- <-.
           exists [], dt. reflexivity.
        -- destruct (Hlast ltac:(lia)) as (tr0 & dt' & ->).
           exists (EvAppendLeaf i (i - 1) 0 dt :: tr0), dt'. reflexivity.
    + rewrite tbind_lift_raise. cbn. split; [intros [Hd|[]]; discriminate|].
      intros fr' s' Hd. discriminate.
Qed.

Lemma skip_initial_frames_spec (s : Self) :
  ~ In EvRunSwarm (fst (_skip_initial_frames s)) /\
  forall fr' s', snd (_skip_initial_frames s) = Ok (fr', s') ->
    reward_limit s' = reward_limit s /\
    (f_end fr' = false ->
     f_i_step fr' = Z.of_nat (Z.to_nat (skip_initial_frames s)) /\
     ((0 < Z.to_nat (skip_initial_frames s))%nat ->
      exists tr0 dt,
        fst (_skip_initial_frames s)
        = tr0 ++ [EvAppendLeaf (f_i_step fr') (f_i_step fr' - 1) 0 dt])).
Proof.
  unfold _skip_initial_frames.
  destruct (env_reset (hidden s)) as [h so].
  match goal with
  | |- context [skip_loop ?k ?f ?st] =>
      destruct (skip_loop_spec k f st) as (Hno & Hok)
  end.
  cbn [skip_initial_frames set_agent_reward set_hidden] in *.
  split; [exact Hno|].
  intros fr' s' E. destruct (Hok _ _ E) as (Hl & Hrest).
  split; [exact Hl|].
  intros Hend. destruct (Hrest eq_refl Hend) as (Hi & Hlast).
  split; [exact Hi | exact Hlast].
Qed.

(** Without a reward limit the loop of [run_agent] never plans: it is left
    at once when the warm-up ended the episode, and its guard raises
    otherwise. *)
Lemma run_agent_loop_no_limit (fuel : nat) (render : bool) (fr : Frame)
    (s : Self) :
  reward_limit s = None ->
  run_agent_loop fuel render fr s
  = ([], match fuel with
         | O => Raise OutOfFuel
         | S _ => if f_end fr then Ok s else Raise TypeError
         end).
Proof.
  intros Hl. destruct fuel as [|fuel]; [reflexivity|].
  cbn [run_agent_loop]. unfold run_agent_guard. rewrite Hl.
  destruct (f_end fr); reflexivity.
Qed.

(** C9. When [skip_initial_frames >= 1] and no warm-up step reports a
    terminal condition, the warm-up ends by appending the node
    [i_step = skip_initial_frames] with parent [i_step - 1], and the next
    call [run_agent] makes is [append_leaf] with that same node id and
    parent: the tree receives the id twice. *)
Theorem run_agent_repeats_node_id
    (fuel : nat) (render : bool) (s : Self)
    (tr : list event) (fr : Frame) (s1 : Self) :
  1 <= skip_initial_frames s ->
  _skip_initial_frames (set_tree (tree_reset (tree s)) s)
  = (tr, Ok (fr, s1)) ->
  f_end fr = false ->
  f_i_step fr = skip_initial_frames s /\
  (exists tr0 dt,
     tr = tr0 ++ [EvAppendLeaf (skip_initial_frames s)
                    (skip_initial_frames s - 1) 0 dt]) /\
  (exists rest,
     fst (run_agent fuel render s)
     = tr ++ EvAppendLeaf (skip_initial_frames s)
               (skip_initial_frames s - 1) 0 1 :: rest).
Proof.
  intros Hk E Hend.
  destruct (skip_initial_frames_spec (set_tree (tree_reset (tree s)) s))
    as (_ & Hok).
  rewrite E in Hok. destruct (Hok _ _ eq_refl) as (_ & Hrest).
  destruct (Hrest Hend) as (Hi & Hlast).
  cbn [skip_initial_frames set_tree] in Hi, Hlast.
  rewrite Z2Nat.id in Hi by lia.
  split; [exact Hi|]. split.
  - destruct (Hlast ltac:(lia)) as (tr0 & dt & Htr).
    cbn [fst] in Htr. rewrite Hi in Htr. eauto.
  - unfold run_agent. rewrite E, tbind_ok. cbn [fst snd].
    rewrite tbind_emit. cbn [fst]. rewrite Hi. eauto.
Qed.

(** C10. With [reward_limit = None] (the constructor default) [run_agent]
    never runs a planning cycle: once the warm-up and the append after it
    have returned with the episode not ended, the guard of the episode loop
    compares the agent reward with [None] and raises [TypeError].
    [run_agent] returns normally only when the warm-up itself ended the
    episode.  [stop_condition] on the same object does not raise. *)
Theorem run_agent_needs_reward_limit
    (fuel : nat) (render : bool) (s : Self) :
  reward_limit s = None ->
  (exists b s', stop_condition s = Ok (b, s')) /\
  ~ In EvRunSwarm (fst (run_agent fuel render s)) /\
  (forall tr fr s1 t,
     _skip_initial_frames (set_tree (tree_reset (tree s)) s)
     = (tr, Ok (fr, s1)) ->
     f_end fr = false ->
     append_leaf (f_i_step fr) (f_i_step fr - 1) (f_state fr) 0 1 (tree s1)
     = Ok t ->
     snd (run_agent (S fuel) render s) = Raise TypeError) /\
  (forall s', snd (run_agent fuel render s) = Ok s' ->
     exists tr fr s1,
       _skip_initial_frames (set_tree (tree_reset (tree s)) s)
       = (tr, Ok (fr, s1)) /\
       f_end fr = true).
Proof.
  intros Hl.
  destruct (skip_initial_frames_spec (set_tree (tree_reset (tree s)) s))
    as (Hno & Hok).
  split; [|split; [|split]].
  - unfold stop_condition. rewrite Hl. cbn. eauto.
  - unfold run_agent.
    destruct (_skip_initial_frames (set_tree (tree_reset (tree s)) s))
      as [tr [[fr s1]|e]]; [|rewrite tbind_raise; exact Hno].
    destruct (Hok _ _ eq_refl) as (Hl1 & _). cbn in Hl1.
    rewrite tbind_ok, tbind_emit. cbn [fst snd].
    destruct (append_leaf _ _ _ _ _ _) as [t|e].
    + rewrite tbind_lift_ok, run_agent_loop_no_limit
        by (cbn; congruence).
      cbn [fst]. rewrite in_app_iff.
      intros [Hin|[Hd|[]]]; [exact (Hno Hin) | discriminate].
    + rewrite tbind_lift_raise. cbn [fst]. rewrite in_app_iff.
      intros [Hin|[Hd|[]]]; [exact (Hno Hin) | discriminate].
  - intros tr fr s1 t E Hend Ea. rewrite E in Hok.
    destruct (Hok _ _ eq_refl) as (Hl1 & _). cbn in Hl1.
    unfold run_agent. rewrite E, tbind_ok, tbind_emit. cbn [fst snd].
    cbn [tree set_save_steps]. rewrite Ea, tbind_lift_ok.
    rewrite run_agent_loop_no_limit by (cbn; congruence).
    cbn. now rewrite Hend.
  - intros s' E. unfold run_agent in E.
    destruct (_skip_initial_frames (set_tree (tree_reset (tree s)) s))
      as [tr [[fr s1]|e]]; [|rewrite tbind_raise in E; discriminate].
    destruct (Hok _ _ eq_refl) as (Hl1 & _). cbn in Hl1.
    rewrite tbind_ok, tbind_emit in E. cbn [fst snd] in E.
    destruct (append_leaf _ _ _ _ _ _) as [t|e].
    + rewrite tbind_lift_ok, run_agent_loop_no_limit in E
        by (cbn; congruence).
      cbn in E. destruct fuel; [discriminate|].
      destruct (f_end fr) eqn:Hend; [|discriminate].
      exists tr, fr, s1. now split.
    + rewrite tbind_lift_raise in E. discriminate.
Qed.

End Episode.

Lemma toy_warmup (s : Toy.Obj) :
  is_ok (snd (Toy.warmup s)) = true ->
  _skip_initial_frames (C := Toy.collaborators 2)
    (set_tree (tree_reset (Collaborators := Toy.collaborators 2) (tree s)) s)
  = (fst (Toy.warmup s), Ok (Toy.warm_frame s, Toy.warm_state s)).
Proof.
  unfold Toy.warm_frame, Toy.warm_state. fold (Toy.warmup s).
  destruct (Toy.warmup s) as [tr [[fr s1]|e]]; simpl;
    [reflexivity | discriminate].
Qed.

Lemma run_agent_repeats_node_id_witness :
  f_i_step (Toy.warm_frame Toy.warm_agent) = 2 /\
  exists rest,
    fst (run_agent (C := Toy.collaborators 2) 3 false Toy.warm_agent)
    = fst (Toy.warmup Toy.warm_agent) ++ EvAppendLeaf 2 1 0 1 :: rest.
Proof.
  assert (Hk : 1 <= skip_initial_frames Toy.warm_agent)
    by (vm_compute; discriminate).
  assert (He : f_end (Toy.warm_frame Toy.warm_agent) = false)
    by reflexivity.
  destruct (@run_agent_repeats_node_id _ _ _ _ (Toy.collaborators 2)
              3%nat false Toy.warm_agent _ _ _ Hk
              (toy_warmup Toy.warm_agent eq_refl) He) as (A & _ & B).
  split; [exact A | exact B].
Defined.

Lemma run_agent_needs_reward_limit_witness :
  snd (run_agent (C := Toy.collaborators 2) 1 false Toy.two_walkers)
  = Raise TypeError.
Proof.
  assert (Hl : reward_limit Toy.two_walkers = None) by reflexivity.
  destruct (@run_agent_needs_reward_limit _ _ _ _ (Toy.collaborators 2)
              0%nat false Toy.two_walkers Hl) as (_ & _ & A & _).
  eapply A.
  - exact (toy_warmup Toy.two_walkers eq_refl).
  - reflexivity.
  - vm_compute. reflexivity.
Defined.

(** ** More on the stop condition *)

Section StopCondition.
Context {T H EState Obs : Type} {C : Collaborators T H EState Obs}.
Local Abbreviation Self := (FractalMC T H).

(** Whatever [stop_condition] returns, it has changed the status only; it
    answers true exactly when the status it leaves is not ["Playing..."],
    and it answers false only while some walker is alive and the samples
    consumed do not exceed the budget. *)
Theorem stop_condition_status (s s' : Self) (b : bool) :
  stop_condition s = Ok (b, s') ->
  s' = set_game_status (_game_status s') s /\
  (b = true <-> _game_status s' <> "Playing..."%string) /\
  (b = false -> np_all (_end_cond s) = false /\
                _n_samples_done s <= _max_samples_step s).
Proof.
  unfold stop_condition. intros E.
  apply bind_ok in E. destruct E as (sc & _ & E).
  injection E as <- <-. cbn.
  split; [reflexivity|].
  destruct (_max_samples_step s <? _n_samples_done s) eqn:Eh; cbn.
  - split; [split; [discriminate | reflexivity] | discriminate].
  - apply Z.ltb_ge in Eh.
    destruct sc; cbn;
      [split; [split; [discriminate | reflexivity] | discriminate]|].
    destruct (np_all (_end_cond s)); cbn.
    + split; [split; [discriminate | reflexivity] | discriminate].
    + split; [split; [discriminate | intros Hn; now elim Hn] | auto].
Qed.

(** Score limit: while the samples consumed do not exceed the budget, one
    walker whose reward has reached [reward_limit] is enough to stop the
    cycle, with status ["Score limit reached."]. *)
Theorem stop_condition_score (s : Self) (limit r : Q) :
  reward_limit s = Some limit ->
  _n_samples_done s <= _max_samples_step s ->
  In r (rewards s) ->
  (limit <= r)%Q ->
  stop_condition s
  = Ok (true, set_game_status "Score limit reached."%string s).
Proof.
  intros Hl Hh Hr Hle. unfold stop_condition. rewrite Hl.
  destruct (np_max (rewards s)) as [m|e] eqn:Em.
  - apply np_max_spec in Em. destruct Em as (_ & Hmax).
    assert (Hm : Qle_bool limit m = true).
    { apply Qle_bool_iff. eapply Qle_trans; [exact Hle | now apply Hmax]. }
    cbn. rewrite Hm.
    destruct (Z.ltb_spec (_max_samples_step s) (_n_samples_done s)); [lia|].
    reflexivity.
  - destruct (rewards s); [destruct Hr | discriminate].
Qed.

(** Extinction: without a reward limit and within the budget, a population
    whose walkers are all terminal stops the cycle with status
    ["All the walkers died."]; an empty population counts as extinct. *)
Theorem stop_condition_extinct (s : Self) :
  reward_limit s = None ->
  _n_samples_done s <= _max_samples_step s ->
  Forall (fun d => d = true) (_end_cond s) ->
  stop_condition s
  = Ok (true, set_game_status "All the walkers died."%string s).
Proof.
  intros Hl Hh Hd. unfold stop_condition. rewrite Hl. cbn.
  destruct (Z.ltb_spec (_max_samples_step s) (_n_samples_done s)); [lia|].
  assert (Ha : np_all (_end_cond s) = true).
  { unfold np_all. apply forallb_forall. rewrite Forall_forall in Hd. auto. }
  rewrite Ha. reflexivity.
Qed.

(** [stop_condition] raises only on an empty population with a reward
    limit set: the maximum of no rewards is a [ValueError]. *)
Theorem stop_condition_raises (s : Self) (e : exn) :
  stop_condition s = Raise e <->
  e = ValueError /\ reward_limit s <> None /\ rewards s = [].
Proof.
  unfold stop_condition. split.
  - intros E. destruct (reward_limit s) as [limit|]; [|discriminate].
    destruct (rewards s); [|discriminate].
    injection E as <-. repeat split. discriminate.
  - intros (-> & Hl & Hr). destruct (reward_limit s) as [limit|];
      [|congruence].
    rewrite Hr. reflexivity.
Qed.

End StopCondition.

(** ** More on the planning cycle *)

Section RunSwarmMore.
Context {T H EState Obs : Type} {C : Collaborators T H EState Obs}.
Local Abbreviation Self := (FractalMC T H).

(** The hard limit is checked between iterations, so the budget can be
    exceeded, but by less than one iteration: with budget [b] and [c]
    samples per iteration the cycle ends after at most [b / c + 1]
    iterations, having consumed at most [b + c] samples. *)
Theorem run_swarm_overshoot
    (start : CycleStart) (frame : SwarmFrame)
    (c : Z) (cost : SampleCost c)
    (fuel : nat) (st : option EState) (ob : option Obs) (s : Self) :
  0 < c ->
  0 <= _max_samples_step s ->
  (Z.to_nat (_max_samples_step s / c + 1) < fuel)%nat ->
  match run_swarm fuel st ob s with
  | Ok s' =>
      _i_simulation s' <= _max_samples_step s / c + 1 /\
      _n_samples_done s' = c * _i_simulation s' /\
      _n_samples_done s' <= _max_samples_step s + c
  | Raise e => python_exn e
  end.
Proof.
  intros Hc Hb Hf. unfold run_swarm, init_swarm.
  set (s0 := swarm_init_swarm st ob (swarm_reset s)).
  destruct (np_zeros (n_walkers s0)) as [z|e] eqn:Ez; simpl.
  - pose proof (run_swarm_loop_bound frame cost (b := _max_samples_step s)
                  Hc (fuel := fuel) (set_init_ids z s0)) as L.
    cbn in L. unfold s0 in L.
    rewrite (start_budget start), (start_samples start),
      (start_iteration start) in L.
    assert (0 <= _max_samples_step s / c) by (apply Z.div_pos; lia).
    specialize (L eq_refl ltac:(lia) ltac:(lia)).
    rewrite Z.sub_0_r in L. specialize (L Hf).
    destruct (run_swarm_loop fuel _) as [s'|e]; [|exact L].
    destruct L as (Hi & Hn & _). split; [exact Hi|]. split; [exact Hn|].
    pose proof (Z.mul_div_le (_max_samples_step s) c Hc). nia.
  - apply np_zeros_exn in Ez. unfold python_exn. congruence.
Qed.

(** When [run_swarm] returns, the status names the reason: never
    ["Playing..."]. *)
Theorem run_swarm_final_status
    (fuel : nat) (st : option EState) (ob : option Obs) (s s' : Self) :
  run_swarm fuel st ob s = Ok s' ->
  _game_status s' = "Sample limit reached."%string \/
  _game_status s' = "Score limit reached."%string \/
  _game_status s' = "All the walkers died."%string.
Proof.
  unfold run_swarm. intros E.
  apply bind_ok in E. destruct E as (s0 & _ & E).
  apply run_swarm_loop_iterations in E. destruct E as (sk & _ & E).
  unfold stop_condition in E.
  apply bind_ok in E. destruct E as (sc & _ & E).
  injection E as Eb <-. cbn.
  destruct (_max_samples_step sk <? _n_samples_done sk); [now left|].
  destruct sc; [right; now left|].
  destruct (np_all (_end_cond sk)); [right; now right | discriminate].
Qed.

(** [render_every = 0] makes every evolution iteration fail: the test
    [_i_simulation % render_every] divides by zero (unless [clone] raised
    before). *)
Theorem run_swarm_body_render_every_zero
    (keeps_r : keeps_render_every) (s : Self) :
  render_every s = Some 0 ->
  forall s', run_swarm_body s <> Ok s'.
Proof.
  intros Hr s' E. unfold run_swarm_body in E.
  set (s0 := if 1 <? _i_simulation s then clone_condition s else s) in E.
  assert (R0 : render_every s0 = Some 0).
  { unfold s0. destruct (1 <? _i_simulation s); [|exact Hr].
    destruct (keeps_r s) as (-> & _). exact Hr. }
  set (s1 := step_walkers s0) in E.
  assert (R1 : render_every s1 = Some 0).
  { unfold s1. destruct (keeps_r s0) as (_ & -> & _). exact R0. }
  apply bind_ok in E. destruct E as (s2 & E2 & E).
  assert (R2 : render_every s2 = Some 0).
  { destruct (1 <? _i_simulation s1).
    - unfold clone in E2. destruct (keeps_r s1) as (_ & _ & Rk).
      destruct (_clone_idx (swarm_clone s1)).
      + apply bind_ok in E2. destruct E2 as (? & _ & E2).
        apply bind_ok in E2. destruct E2 as (? & _ & E2).
        injection E2 as <-. cbn. congruence.
      + injection E2 as <-. congruence.
    - destruct (_i_simulation s1 =? 0); injection E2 as <-; cbn; exact R1. }
  unfold maybe_render in E. cbn in E. rewrite R2 in E. discriminate.
Qed.

End RunSwarmMore.

(** ** More on cloning *)

Lemma py_index_in_range {A : Type} (a : list A) (i : Z) :
  - Z.of_nat (length a) <= i < Z.of_nat (length a) ->
  exists x, py_index a i = Ok x.
Proof.
  intros Hi. unfold py_index.
  destruct (Z.ltb_spec i (- Z.of_nat (length a))); [lia|].
  destruct (Z.leb_spec (Z.of_nat (length a)) i); [lia|]. simpl.
  destruct (nth_error a _) as [x|] eqn:E; [eauto|].
  apply nth_error_None in E. destruct (Z.ltb_spec i 0); lia.
Qed.

Lemma py_index_out_of_range {A : Type} (a : list A) (i : Z) :
  i < - Z.of_nat (length a) \/ Z.of_nat (length a) <= i ->
  py_index a i = Raise IndexError.
Proof.
  intros Hi. unfold py_index.
  destruct (Z.ltb_spec i (- Z.of_nat (length a)));
    destruct (Z.leb_spec (Z.of_nat (length a)) i); simpl;
    try reflexivity; lia.
Qed.

Lemma np_take_total {A : Type} (a : list A) (idx : list Z) :
  Forall (fun k => - Z.of_nat (length a) <= k < Z.of_nat (length a)) idx ->
  exists r, np_take a idx = Ok r.
Proof.
  induction 1 as [|k idx Hk _ (r & IH)]; simpl; [eauto|].
  destruct (py_index_in_range a Hk) as (x & ->). rewrite IH. simpl. eauto.
Qed.

Lemma np_take_out_of_range {A : Type} (a : list A) (idx : list Z) :
  Exists (fun k => k < - Z.of_nat (length a) \/ Z.of_nat (length a) <= k)
    idx ->
  np_take a idx = Raise IndexError.
Proof.
  induction 1 as [k idx Hk | k idx _ IH]; simpl.
  - now rewrite (py_index_out_of_range a Hk).
  - rewrite IH. destruct (py_index a k) as [x|e] eqn:E; simpl;
      [reflexivity|]. apply py_index_exn in E. now subst.
Qed.

Lemma bget_defined {A : Type} (a : list A) (i : nat) :
  (i < length a)%nat -> exists v, bget a i = Some v.
Proof.
  intros Hi. unfold bget. destruct a as [|x [|y t]]; simpl in *; [lia|eauto|].
  destruct (nth_error (x :: y :: t) i) as [v|] eqn:E; [eauto|].
  apply nth_error_None in E. simpl in E. lia.
Qed.

Lemma where_rows_total {A : Type} (c : list bool) (x y : list A) (k i : nat) :
  (i + k <= length c)%nat -> (i + k <= length x)%nat ->
  (i + k <= length y)%nat ->
  exists r, where_rows c x y i k = Ok r /\ length r = k.
Proof.
  revert i. induction k as [|k IH]; intros i Hc Hx Hy; simpl; [eauto|].
  destruct (@bget_defined _ c i ltac:(lia)) as (b & ->).
  destruct (@bget_defined _ x i ltac:(lia)) as (u & ->).
  destruct (@bget_defined _ y i ltac:(lia)) as (w & ->).
  destruct (IH (S i)) as (r & -> & Hr); try lia.
  simpl. eexists. split; [reflexivity|]. simpl. lia.
Qed.

Lemma np_where_total {A : Type} (c : list bool) (x y : list A) :
  length c = length y -> length x = length y ->
  exists r, np_where c x y = Ok r /\ length r = length y.
Proof.
  intros Hc Hx. unfold np_where, bshape.
  rewrite Hc, Hx, Nat.eqb_refl. rewrite Nat.eqb_refl.
  apply where_rows_total; lia.
Qed.

Section CloneMore.
Context {T H EState Obs : Type} {C : Collaborators T H EState Obs}.
Local Abbreviation Self := (FractalMC T H).

(** [clone] returns, and keeps the number of origin ids, when the clone
    decisions and the companion indices have one entry per origin id and
    every companion index is a valid Python index. *)
Theorem clone_total (s : Self) (idx : list Z) :
  _clone_idx (swarm_clone s) = Some idx ->
  length idx = length (init_ids (swarm_clone s)) ->
  length (_will_clone (swarm_clone s)) = length (init_ids (swarm_clone s)) ->
  Forall (fun k =>
            - Z.of_nat (length (init_ids (swarm_clone s))) <= k
            < Z.of_nat (length (init_ids (swarm_clone s)))) idx ->
  exists s',
    clone s = Ok s' /\
    length (init_ids s') = length (init_ids (swarm_clone s)).
Proof.
  intros Hi Hlen Hw Hr. unfold clone. rewrite Hi.
  destruct (np_take_total _ Hr) as (comp & Hc). rewrite Hc. simpl.
  destruct (np_take_nth _ _ Hc) as (Hl & _).
  destruct (@np_where_total _ (_will_clone (swarm_clone s)) comp
              (init_ids (swarm_clone s)) Hw ltac:(congruence))
    as (ids & -> & Hids).
  simpl. eexists. split; [reflexivity | exact Hids].
Qed.

(** A companion index outside the population makes [clone] raise
    [IndexError]. *)
Theorem clone_index_error (s : Self) (idx : list Z) :
  _clone_idx (swarm_clone s) = Some idx ->
  Exists (fun k =>
            k < - Z.of_nat (length (init_ids (swarm_clone s))) \/
            Z.of_nat (length (init_ids (swarm_clone s))) <= k) idx ->
  clone s = Raise IndexError.
Proof.
  intros Hi He. unfold clone. rewrite Hi.
  now rewrite (np_take_out_of_range _ He).
Qed.

(** A walker paired with itself keeps its origin id, whatever its
    will-clone flag. *)
Theorem clone_self_pairing (s s' : Self) (idx : list Z) (j : nat)
    (old new : Z) :
  clone s = Ok s' ->
  _clone_idx (swarm_clone s) = Some idx ->
  nth_error idx j = Some (Z.of_nat j) ->
  nth_error (init_ids (swarm_clone s)) j = Some old ->
  nth_error (init_ids s') j = Some new ->
  new = old.
Proof.
  intros E Hi Hj Ho Hn. unfold clone in E. rewrite Hi in E.
  apply bind_ok in E. destruct E as (comp & Ec & E).
  apply bind_ok in E. destruct E as (ids & Ew & E).
  injection E as <-. cbn in Hn.
  destruct (np_where_nth _ _ _ Ew _ Hn) as (b & u & w & _ & Hu & Hw & ->).
  assert (w = old) by (eapply bget_nth; eauto). subst w.
  destruct b; [|reflexivity].
  destruct (np_take_bget _ _ Ec _ Hu) as (k & Hk & Hp).
  assert (k = Z.of_nat j) by (eapply bget_nth; eauto). subst k.
  rewrite (py_index_nat _ _ Ho) in Hp. congruence.
Qed.

End CloneMore.

(** ** More on the adaptive control *)

(** Rounding up a product or a quotient that is no smaller than an integer
    gives at least that integer. *)
Lemma ceil_ge (z : Z) (q : Q) : (inject_Z z <= q)%Q -> z <= Qceiling q.
Proof.
  intros Hq. rewrite <- (Qceiling_Z z). now apply Qceiling_resp_le.
Qed.

Lemma ceil_mul_ge (n : Z) (b : Q) :
  (1 <= b)%Q -> 0 <= n -> n <= Qceiling (inject_Z n * b).
Proof.
  intros Hb Hn. apply ceil_ge.
  rewrite <- (Qmult_1_r (inject_Z n)) at 1.
  rewrite (Qmult_comm (inject_Z n) 1), (Qmult_comm (inject_Z n) b).
  apply Qmult_le_compat_r; [exact Hb|].
  change 0%Q with (inject_Z 0). now rewrite <- Zle_Qle.
Qed.



Section ControlMore.
Context {T H : Type}.
Local Abbreviation Self := (FractalMC T H).

(** One call of [update_parameters] changes the population size or the
    budget, never both; it records the samples consumed and leaves the
    configured limits alone. *)
Theorem update_parameters_one_axis (s : Self) :
  (n_walkers (update_parameters s) = n_walkers s \/
   _max_samples_step (update_parameters s) = _max_samples_step s) /\
  _save_steps (update_parameters s) = _save_steps s ++ [_n_samples_done s] /\
  balance (update_parameters s) = balance (_update_balance s) /\
  max_walkers (update_parameters s) = max_walkers s /\
  max_samples (update_parameters s) = max_samples s /\
  min_horizon (update_parameters s) = min_horizon s /\
  time_horizon (update_parameters s) = time_horizon s.
Proof.
  unfold update_parameters.
  destruct (Qle_bool 1 _).
  - destruct (_ =? _); cbn; repeat split; auto.
  - destruct (at_max_samples _); cbn; repeat split; auto.
Qed.

(** [update_parameters] keeps the population size within
    [2, max_walkers]. *)
Theorem update_parameters_population_range (s : Self) :
  2 <= max_walkers s ->
  2 <= n_walkers s <= max_walkers s ->
  2 <= n_walkers (update_parameters s) <= max_walkers (update_parameters s).
Proof.
  intros Hm Hn. unfold update_parameters.
  destruct (Qle_bool 1 _).
  - destruct (_ =? _); cbn; [exact Hn | lia].
  - destruct (at_max_samples _); cbn; [lia | exact Hn].
Qed.

(** Depth target met with room left in the population: the population
    does not shrink and does not pass [max_walkers]; the budget stays. *)
Theorem update_parameters_grows_population (s : Self) :
  (1 <= balance (_update_balance s))%Q ->
  n_walkers s <> max_walkers s ->
  2 <= n_walkers s <= max_walkers s ->
  n_walkers s <= n_walkers (update_parameters s) <= max_walkers s /\
  _max_samples_step (update_parameters s) = _max_samples_step s.
Proof.
  intros Hb Hne Hn. unfold update_parameters.
  change (balance (_update_balance (set_save_steps _ s)))
    with (balance (_update_balance s)).
  pose proof Hb as Hb'. apply Qle_bool_iff in Hb'. rewrite Hb'. cbn.
  apply Z.eqb_neq in Hne. rewrite Hne. cbn.
  change (np_mean (times s) / inject_Z (time_horizon s))%Q
    with (balance (_update_balance s)).
  assert (n_walkers s
          <= Qceiling (inject_Z (n_walkers s) * balance (_update_balance s)))
    by (apply ceil_mul_ge; [exact Hb | lia]).
  split; [lia | reflexivity].
Qed.


(** Without a configured per-cycle maximum ([max_samples_step = None])
    the test [_max_samples_step == max_samples] never holds, so
    [update_parameters] never shrinks the population. *)
Theorem update_parameters_uncapped_keeps_population (s : Self) :
  max_samples s = None ->
  2 <= n_walkers s <= max_walkers s ->
  n_walkers s <= n_walkers (update_parameters s).
Proof.
  intros Hm Hn. unfold update_parameters.
  change (balance (_update_balance (set_save_steps _ s)))
    with (balance (_update_balance s)).
  destruct (Qle_bool 1 (balance (_update_balance s))) eqn:Eb.
  - apply Qle_bool_iff in Eb. cbn.
    destruct (n_walkers s =? max_walkers s); cbn; [lia|].
    change (np_mean (times s) / inject_Z (time_horizon s))%Q
      with (balance (_update_balance s)).
    assert (n_walkers s
            <= Qceiling (inject_Z (n_walkers s)
                         * balance (_update_balance s)))
      by (apply ceil_mul_ge; [exact Eb | lia]).
    lia.
  - unfold at_max_samples. cbn. rewrite Hm. cbn. lia.
Qed.

End ControlMore.

(** ** More on the aggregation *)

Lemma bincount_length (x : list Z) (m : nat) (counts : list Z) :
  bincount x m = Ok counts ->
  length counts = Nat.max m (Z.to_nat (fold_right Z.max (-1) x + 1)).
Proof.
  unfold bincount. destruct (existsb _ x); [discriminate|].
  intros [= <-]. now rewrite length_map, length_seq.
Qed.

Lemma fold_max_below (x : list Z) (B : Z) :
  -1 < B -> Forall (fun v => v < B) x -> fold_right Z.max (-1) x < B.
Proof.
  intros HB. induction 1 as [|v x Hv _ IH]; simpl; lia.
Qed.

Lemma fold_max_nil (x : list Z) :
  Forall (fun v => 0 <= v) x -> fold_right Z.max (-1) x <= -1 -> x = [].
Proof.
  destruct x as [|v x]; [reflexivity|]. intros Hx Hm. exfalso.
  inversion Hx; subst. simpl in Hm. lia.
Qed.

Lemma bincount_raises (x : list Z) (m : nat) (e : exn) :
  bincount x m = Raise e <-> e = ValueError /\ Exists (fun v => v < 0) x.
Proof.
  unfold bincount. destruct (existsb _ x) eqn:E.
  - apply existsb_exists in E. destruct E as (v & Hv & Hlt).
    apply Z.ltb_lt in Hlt. split.
    + intros [= <-]. split; [reflexivity|]. apply Exists_exists. eauto.
    + now intros (-> & _).
  - split; [discriminate|]. intros (_ & He). exfalso.
    apply Exists_exists in He. destruct He as (v & Hv & Hlt).
    assert (existsb (fun v => v <? 0) x = true); [|congruence].
    apply existsb_exists. exists v. split; [exact Hv | now apply Z.ltb_lt].
Qed.


Lemma np_mask_total {A : Type} (a : list A) (m : list bool) :
  length a = length m -> exists sel, np_mask a m = Ok sel.
Proof.
  revert m. induction a as [|x a IH]; intros [|b m] Hl; simpl in *;
    try discriminate; [eauto|].
  destruct (IH m ltac:(lia)) as (sel & ->). simpl. eauto.
Qed.

Lemma np_mask_mismatch {A : Type} (a : list A) (m : list bool) :
  length a <> length m -> np_mask a m = Raise IndexError.
Proof.
  revert m. induction a as [|x a IH]; intros [|b m] Hl; simpl in *;
    try reflexivity; [congruence|].
  now rewrite IH by lia.
Qed.

Lemma collect_total {A B : Type} (f : A -> result B) (l : list A) :
  (forall x, In x l -> exists y, f x = Ok y) ->
  exists rs, collect f l = Ok rs.
Proof.
  induction l as [|x l IH]; intros Hf; simpl; [eauto|].
  destruct (Hf x (or_introl eq_refl)) as (y & ->).
  destruct IH as (rs & ->); [intros z Hz; apply Hf; now right|].
  simpl. eauto.
Qed.

Section AggregationMore.
Context {T H EState Obs : Type} {C : Collaborators T H EState Obs}.
Local Abbreviation Self := (FractalMC T H).

(** When every origin action is a valid action id, so is the action
    [weight_actions] returns. *)
Theorem weight_actions_valid_id (s : Self) (a : nat) :
  Forall (fun v => 0 <= v < Z.of_nat n_actions) (init_actions s) ->
  weight_actions s = Ok a ->
  (a < n_actions)%nat.
Proof.
  intros Hv E. unfold weight_actions in E.
  apply bind_ok in E. destruct E as (counts & Eb & Ea).
  apply np_argmax_spec in Ea. destruct Ea as (m & Hm & _).
  assert (Ha : (a < length counts)%nat)
    by (apply nth_error_Some; congruence).
  rewrite (bincount_length _ _ Eb) in Ha.
  pose proof (fold_max_floor (init_actions s)) as Hfl.
  destruct (Nat.eq_dec n_actions 0) as [H0|H0].
  - assert (Hnil : init_actions s = []).
    { destruct (init_actions s) as [|v t]; [reflexivity|].
      inversion Hv; subst. lia. }
    rewrite Hnil in Ha. simpl in Ha. lia.
  - assert (fold_right Z.max (-1) (init_actions s) < Z.of_nat n_actions).
    { apply fold_max_below; [lia|].
      eapply Forall_impl; [|exact Hv]. simpl. intros v Hv'. lia. }
    lia.
Qed.

(** [weight_actions] raises exactly in two cases, both a [ValueError]:
    some origin action is negative ([bincount]), or there is neither a
    walker nor an action ([argmax] of an empty array). *)
Theorem weight_actions_raises (s : Self) (e : exn) :
  weight_actions s = Raise e <->
  e = ValueError /\
  (Exists (fun v => v < 0) (init_actions s) \/
   (n_actions = 0%nat /\ init_actions s = [])).
Proof.
  unfold weight_actions. split.
  - destruct (bincount (init_actions s) n_actions) as [counts|e'] eqn:Eb;
      simpl.
    + intros Ea. destruct counts as [|c t]; [|discriminate].
      injection Ea as <-. split; [reflexivity|]. right.
      pose proof (bincount_length _ _ Eb) as Hl. simpl length in Hl.
      pose proof (bincount_ok _ _ Eb) as (Hx & _).
      split; [lia|]. apply (fold_max_nil Hx). lia.
    + intros [= <-]. apply bincount_raises in Eb.
      destruct Eb as (-> & He). split; [reflexivity | now left].
  - intros (-> & [He|(H0 & Hnil)]).
    + assert (Eb : bincount (init_actions s) n_actions = Raise ValueError)
        by (apply bincount_raises; auto).
      now rewrite Eb.
    + rewrite H0, Hnil. reflexivity.
Qed.


(** [get_expected_reward] returns when there are as many rewards as origin
    actions, and raises [IndexError] (the boolean mask does not fit) when
    there are not and the action space is not empty. *)
Theorem get_expected_reward_lengths (s : Self) :
  (length (rewards s) = length (init_actions s) ->
   exists rs, get_expected_reward s = Ok rs) /\
  (length (rewards s) <> length (init_actions s) ->
   (0 < n_actions)%nat ->
   get_expected_reward s = Raise IndexError).
Proof.
  unfold get_expected_reward. split.
  - intros Hl. apply collect_total. intros i _. unfold max_reward_of.
    destruct (@np_mask_total _ (rewards s)
                (map (fun a => a =? Z.of_nat i) (init_actions s)))
      as (sel & ->); [now rewrite length_map|].
    simpl. destruct sel as [|y t]; simpl; eauto.
  - intros Hl Hn. destruct n_actions as [|n]; [lia|].
    simpl. unfold max_reward_of at 1.
    rewrite np_mask_mismatch by (now rewrite length_map).
    reflexivity.
Qed.

End AggregationMore.

(** ** More on the episode loop *)

Section EpisodeMore.
Context {T H EState Obs : Type} {C : Collaborators T H EState Obs}.
Local Abbreviation Self := (FractalMC T H).
Local Abbreviation Frame := (@Frame EState Obs).

Lemma warmup_calls_succ (first : Z) (k : nat) :
  warmup_calls first (S k)
  = Some (first, first - 1, 0) :: warmup_calls (first + 1) k.
Proof.
  unfold warmup_calls. cbn [seq map]. cbn [Z.of_nat]. rewrite Z.add_0_r.
  f_equal. rewrite <- seq_shift, map_map. apply map_ext. intros j.
  replace (first + 1 + Z.of_nat j) with (first + Z.of_nat (S j)) by lia.
  reflexivity.
Qed.

Lemma skip_loop_chain (k : nat) (fr : Frame) (s : Self) :
  exists j,
    (j <= k)%nat /\
    map appended (fst (skip_loop k fr s))
    = warmup_calls (f_i_step fr + 1) j /\
    forall fr' s', snd (skip_loop k fr s) = Ok (fr', s') ->
      f_i_step fr' = f_i_step fr + Z.of_nat j /\
      (f_end fr' = false -> j = k).
Proof.
  revert fr s. induction k as [|k IH]; intros fr s.
  - exists 0%nat. split; [lia|]. split; [reflexivity|].
    intros fr' s' [= <- <-]. split; [simpl; lia | reflexivity].
  - cbn [skip_loop].
    destruct (env_step (hidden s) (f_state fr) 0 (min_dt s)) as [h r].
    rewrite tbind_emit.
    destruct (append_leaf _ _ _ _ _ _) as [t|e].
    + rewrite tbind_lift_ok.
      destruct (info_terminal r) eqn:Et.
      * exists 1%nat. split; [lia|]. split.
        { cbn [fst map appended]. rewrite warmup_calls_succ. reflexivity. }
        intros fr' s' [= <- <-]. cbn. split; [lia | discriminate].
      * match goal with
        | |- context [skip_loop k ?f ?st] =>
            destruct (IH f st) as (j & Hj & Htr & Hok)
        end.
        exists (S j). split; [lia|]. split.
        { cbn [fst map appended]. rewrite Htr, warmup_calls_succ.
          reflexivity. }
        cbn [snd]. intros fr' s' E. destruct (Hok _ _ E) as (Hi & He).
        cbn [f_i_step] in Hi. split; [lia|].
        intros Hend. rewrite (He Hend). reflexivity.
    + rewrite tbind_lift_raise. exists 1%nat. split; [lia|]. split.
      { cbn [fst map appended]. rewrite warmup_calls_succ. reflexivity. }
      intros fr' s' Hd. discriminate.
Qed.

(** The warm-up appends the nodes 1, 2, ..., [j] in a chain (node [i]
    under node [i - 1], action 0) and nothing else, with [j] at most
    [skip_initial_frames]; the [i_step] it returns is [j], and [j] is
    [skip_initial_frames] (0 when that is negative) unless a step was
    terminal. *)
Theorem skip_initial_frames_chain (s : Self) :
  exists j,
    (j <= Z.to_nat (skip_initial_frames s))%nat /\
    map appended (fst (_skip_initial_frames s)) = warmup_calls 1 j /\
    forall fr' s', snd (_skip_initial_frames s) = Ok (fr', s') ->
      f_i_step fr' = Z.of_nat j /\
      (f_end fr' = false -> j = Z.to_nat (skip_initial_frames s)).
Proof.
  unfold _skip_initial_frames.
  destruct (env_reset (hidden s)) as [h so].
  match goal with
  | |- context [skip_loop ?k ?f ?st] =>
      destruct (skip_loop_chain k f st) as (j & Hj & Htr & Hok)
  end.
  cbn [skip_initial_frames set_agent_reward set_hidden f_i_step] in *.
  exists j. split; [exact Hj|]. split; [exact Htr|].
  intros fr' s' E. destruct (Hok _ _ E) as (Hi & He).
  split; [lia | exact He].
Qed.

Lemma warmup_calls_chained (first : Z) (k : nat) (tr : list event) :
  map appended tr = warmup_calls first k -> Forall chained tr.
Proof.
  revert first tr. induction k as [|k IH]; intros first tr E.
  - destruct tr; [constructor | discriminate].
  - rewrite warmup_calls_succ in E. destruct tr as [|e tr]; [discriminate|].
    simpl in E. injection E as He Htr. constructor; [|eauto].
    destruct e; simpl in *; [|discriminate]. injection He as -> -> _.
    reflexivity.
Qed.

Lemma run_agent_loop_chained (fuel : nat) (render : bool) (fr : Frame)
    (s : Self) :
  Forall chained (fst (run_agent_loop fuel render fr s)).
Proof.
  revert fr s. induction fuel as [|fuel IH]; intros fr s; [constructor|].
  cbn [run_agent_loop].
  destruct (run_agent_guard fr s) as [go|e];
    [rewrite tbind_lift_ok | constructor].
  destruct go; cbn [negb]; [|constructor].
  rewrite tbind_emit. cbn [fst]. constructor; [exact I|].
  destruct (run_swarm fuel _ _ s) as [s1|e];
    [rewrite tbind_lift_ok | constructor].
  destruct (weight_actions s1) as [a|e];
    [rewrite tbind_lift_ok | constructor].
  destruct (env_step _ _ _ _) as [h r].
  rewrite tbind_emit. cbn [fst]. constructor; [reflexivity|].
  destruct (append_leaf _ _ _ _ _ _) as [t|e];
    [rewrite tbind_lift_ok | constructor].
  apply IH.
Qed.

(** Every node [run_agent] appends hangs under the node with the preceding
    id: the episode is recorded as one chain. *)
Theorem run_agent_chained (fuel : nat) (render : bool) (s : Self) :
  Forall chained (fst (run_agent fuel render s)).
Proof.
  unfold run_agent.
  destruct (skip_initial_frames_chain (set_tree (tree_reset (tree s)) s))
    as (j & _ & Htr & _).
  apply warmup_calls_chained in Htr.
  destruct (_skip_initial_frames _) as [tr [[fr s1]|e]];
    [|rewrite tbind_raise; exact Htr].
  rewrite tbind_ok. cbn [fst snd] in *. apply Forall_app. split; [exact Htr|].
  rewrite tbind_emit. cbn [fst]. constructor; [reflexivity|].
  destruct (append_leaf _ _ _ _ _ _) as [t|e];
    [rewrite tbind_lift_ok | constructor].
  apply run_agent_loop_chained.
Qed.

(** A reward limit that is already reached ([reward_limit <= 0], no
    warm-up): [run_agent] appends the root node and returns without
    planning or acting. *)
Theorem run_agent_limit_already_reached
    (fuel : nat) (render : bool) (s : Self) (limit : Q) (t : T) :
  reward_limit s = Some limit ->
  (limit <= 0)%Q ->
  skip_initial_frames s <= 0 ->
  append_leaf 0 (-1) (fst (snd (env_reset (hidden s)))) 0 1
    (tree_reset (tree s)) = Ok t ->
  exists s',
    run_agent (S fuel) render s = ([EvAppendLeaf 0 (-1) 0 1], Ok s') /\
    tree s' = t /\ (_agent_reward s' == 0)%Q /\ _save_steps s' = [].
Proof.
  intros Hl Hle Hk Ha. unfold run_agent, _skip_initial_frames.
  cbn [hidden set_tree skip_initial_frames].
  destruct (env_reset (hidden s)) as [h so].
  cbn [hidden set_tree skip_initial_frames set_agent_reward set_hidden].
  assert (Z.to_nat (skip_initial_frames s) = 0%nat) as -> by lia.
  cbn [skip_loop]. rewrite tbind_lift_ok. cbn [fst snd f_i_step f_state].
  rewrite tbind_emit. cbn [tree set_save_steps set_agent_reward set_hidden
                             set_tree].
  cbn [fst snd] in Ha. change (0 - 1) with (-1). rewrite Ha.
  rewrite tbind_lift_ok. cbn [run_agent_loop].
  unfold run_agent_guard.
  cbn [f_end reward_limit _agent_reward set_tree set_save_steps
         set_agent_reward set_hidden].
  rewrite Hl. rewrite tbind_lift_ok.
  assert (Hq : Qltb 0 limit = false).
  { unfold Qltb. apply Qle_bool_iff in Hle. now rewrite Hle. }
  rewrite Hq. cbn. eexists. split; [reflexivity|].
  cbn. split; [reflexivity|]. split; reflexivity.
Qed.

End EpisodeMore.

(** ** The properties above on the concrete population *)

Lemma stop_condition_status_witness :
  _game_status (set_game_status "All the walkers died."%string
                  Toy.two_walkers)
  <> "Playing..."%string.
Proof.
  assert (E : stop_condition Toy.two_walkers
              = Ok (true, set_game_status "All the walkers died."%string
                            Toy.two_walkers)) by reflexivity.
  destruct (stop_condition_status Toy.two_walkers E) as (_ & A & _).
  now apply A.
Defined.

Lemma stop_condition_score_witness :
  stop_condition Toy.scored
  = Ok (true, set_game_status "Score limit reached."%string Toy.scored).
Proof.
  apply (stop_condition_score Toy.scored (limit := 5%Q) (r := 5%Q)).
  - reflexivity.
  - vm_compute. discriminate.
  - right. left. reflexivity.
  - apply Qle_refl.
Defined.

Lemma stop_condition_extinct_witness :
  stop_condition Toy.extinct
  = Ok (true, set_game_status "All the walkers died."%string Toy.extinct).
Proof.
  apply stop_condition_extinct.
  - reflexivity.
  - vm_compute. discriminate.
  - repeat constructor.
Defined.

Lemma run_swarm_overshoot_witness :
  match run_swarm (C := Toy.collaborators 4) 10 None None Toy.four_walkers
  with
  | Ok s' =>
      _i_simulation s' <= _max_samples_step Toy.four_walkers / 4 + 1 /\
      _n_samples_done s' = 4 * _i_simulation s' /\
      _n_samples_done s' <= _max_samples_step Toy.four_walkers + 4
  | Raise e => python_exn e
  end.
Proof.
  apply (run_swarm_overshoot (C := Toy.collaborators 4)
           (toy_start 4) (toy_frame 4) (toy_cost 4)).
  - lia.
  - vm_compute. discriminate.
  - vm_compute. lia.
Defined.

Lemma toy_finished :
  run_swarm (C := Toy.collaborators 2) 7 None None Toy.two_walkers
  = Ok Toy.finished.
Proof. vm_compute. reflexivity. Qed.

Lemma run_swarm_final_status_witness :
  _game_status Toy.finished = "Sample limit reached."%string \/
  _game_status Toy.finished = "Score limit reached."%string \/
  _game_status Toy.finished = "All the walkers died."%string.
Proof.
  exact (run_swarm_final_status (C := Toy.collaborators 2) _ _ _ _
           toy_finished).
Defined.

Lemma toy_keeps_render_every (cost : Z) :
  keeps_render_every (C := Toy.collaborators cost).
Proof.
  intros s. cbn. repeat split.
  unfold Toy.toy_clone. destruct (_clone_idx s); reflexivity.
Qed.

Lemma run_swarm_body_render_every_zero_witness :
  run_swarm_body (C := Toy.collaborators 2) Toy.rendering
  <> Ok Toy.rendering.
Proof.
  apply (run_swarm_body_render_every_zero (C := Toy.collaborators 2)
           (toy_keeps_render_every 2)).
  reflexivity.
Defined.

Lemma clone_total_witness :
  exists s',
    clone (C := Toy.collaborators 4) Toy.paired = Ok s' /\
    length (init_ids s') = 4%nat.
Proof.
  apply (clone_total (C := Toy.collaborators 4) Toy.paired
           (idx := [1; 2; 3; 0])).
  - reflexivity.
  - reflexivity.
  - reflexivity.
  - repeat constructor; vm_compute; discriminate.
Defined.

Lemma clone_index_error_witness :
  clone (C := Toy.collaborators 4) Toy.mispaired = Raise IndexError.
Proof.
  apply (clone_index_error (C := Toy.collaborators 4) Toy.mispaired
           (idx := [0; 7; 1; 2])).
  - reflexivity.
  - apply Exists_cons_tl. apply Exists_cons_hd. right.
    vm_compute. discriminate.
Defined.

Lemma clone_self_pairing_witness :
  nth_error (init_ids (Toy.built (clone (C := Toy.collaborators 4)
                                    Toy.selfpaired))) 0
  = Some 1.
Proof.
  assert (E : clone (C := Toy.collaborators 4) Toy.selfpaired
              = Ok (Toy.built (clone (C := Toy.collaborators 4)
                                 Toy.selfpaired)))
    by (vm_compute; reflexivity).
  destruct (nth_error (init_ids (Toy.built (clone
              (C := Toy.collaborators 4) Toy.selfpaired))) 0)
    as [new|] eqn:En; [|vm_compute in En; discriminate].
  f_equal.
  apply (clone_self_pairing (C := Toy.collaborators 4) Toy.selfpaired
           (idx := [0; 2; 3; 0]) 0%nat E); reflexivity || exact En.
Defined.

Lemma update_parameters_population_range_witness :
  2 <= n_walkers (update_parameters Toy.short_many)
  <= max_walkers (update_parameters Toy.short_many).
Proof.
  apply update_parameters_population_range.
  - vm_compute. discriminate.
  - split; vm_compute; discriminate.
Defined.

Lemma update_parameters_grows_population_witness :
  n_walkers Toy.regrow <= n_walkers (update_parameters Toy.regrow)
  <= max_walkers Toy.regrow /\
  _max_samples_step (update_parameters Toy.regrow)
  = _max_samples_step Toy.regrow.
Proof.
  apply update_parameters_grows_population.
  - vm_compute. discriminate.
  - vm_compute. discriminate.
  - split; vm_compute; discriminate.
Defined.


Lemma update_parameters_uncapped_keeps_population_witness :
  n_walkers Toy.short_uncapped
  <= n_walkers (update_parameters Toy.short_uncapped).
Proof.
  apply update_parameters_uncapped_keeps_population.
  - reflexivity.
  - split; vm_compute; discriminate.
Defined.

Lemma weight_actions_valid_id_witness :
  (0 < n_actions (Collaborators := Toy.collaborators 4))%nat.
Proof.
  apply (weight_actions_valid_id (C := Toy.collaborators 4)
           Toy.planned (a := 0%nat)).
  - repeat constructor; vm_compute; discriminate.
  - reflexivity.
Defined.


Lemma get_expected_reward_lengths_witness :
  exists rs, get_expected_reward (C := Toy.collaborators 4) Toy.planned
             = Ok rs.
Proof.
  destruct (get_expected_reward_lengths (C := Toy.collaborators 4)
              Toy.planned) as (A & _).
  apply A. reflexivity.
Defined.

Lemma run_agent_limit_already_reached_witness :
  exists s',
    run_agent (C := Toy.collaborators 2) 1 false Toy.sated
    = ([EvAppendLeaf 0 (-1) 0 1], Ok s') /\
    tree s' = [Toy.mkNode 0 (-1) 0 0 1] /\
    (_agent_reward s' == 0)%Q /\ _save_steps s' = [].
Proof.
  apply (run_agent_limit_already_reached (C := Toy.collaborators 2)
           0%nat false Toy.sated (limit := 0%Q)).
  - reflexivity.
  - apply Qle_refl.
  - vm_compute. discriminate.
  - reflexivity.
Defined.
